(** * Dis-Snek HTTP layer: routes, bucket keys and per-endpoint requests

    A shallow embedding of [dis_snek/api/http/route.py] and of the request
    mixins under [dis_snek/api/http/http_requests/], together with the
    Python primitives they rely on ([str], truthiness, [urllib.parse.quote],
    [str.format_map]).  Route objects live on a heap and methods run in a
    state-and-exception monad over it; a call of [self.request] is an
    entry in a log.  The dispatcher behind [request] is modelled from its
    specification. *)

From Stdlib Require Import Ascii String ZArith.
From stdpp Require Import base strings pretty gmap list.

Local Open Scope Z_scope.

(** ** Python primitives *)

Module Py.

(** The scalar values that flow through identifiers and route parameters:
    [None], [bool], [int] and [str].  A [str] is kept as its UTF-8 bytes;
    the characters the code below tests for are ASCII, and an ASCII byte
    never occurs inside the encoding of another character. *)
Inductive pyval : Type :=
  | PyNone
  | PyBool (b : bool)
  | PyInt (n : Z)
  | PyStr (s : string).

#[global] Instance pyval_eq_dec : EqDecision pyval.
Proof. solve_decision. Defined.

(** [str(v)], which is also [format(v, "")] and what an f-string field
    [{v}] renders. *)
Definition str (v : pyval) : string :=
  match v with
  | PyNone => "None"
  | PyBool true => "True"
  | PyBool false => "False"
  | PyInt n => pretty n
  | PyStr s => s
  end.

(** [bool(v)]: what [if v:] tests. *)
Definition truthy (v : pyval) : bool :=
  match v with
  | PyNone => false
  | PyBool b => b
  | PyInt n => negb (n =? 0)
  | PyStr s => negb (bool_decide (s = ""))
  end.

(** *** [urllib.parse.quote] with its default [safe="/"] *)

Definition in_range (lo hi : N) (c : ascii) : bool :=
  ((lo <=? N_of_ascii c) && (N_of_ascii c <=? hi))%N.

(** [_ALWAYS_SAFE]: ASCII letters, digits and [_.-~]. *)
Definition always_safe (c : ascii) : bool :=
  in_range 65 90 c || in_range 97 122 c || in_range 48 57 c
  || bool_decide (c = "_"%char) || bool_decide (c = "."%char)
  || bool_decide (c = "-"%char) || bool_decide (c = "~"%char).

Definition quote_safe (c : ascii) : bool :=
  always_safe c || bool_decide (c = "/"%char).

Definition hex_digit (n : N) : ascii :=
  if (n <? 10)%N then ascii_of_N (48 + n) else ascii_of_N (55 + n).

(** One byte after quoting: itself when safe, else [%XX] in upper case. *)
Definition quote_byte (c : ascii) : string :=
  if quote_safe c then String c ""
  else String "%" (String (hex_digit (N_of_ascii c / 16))
                   (String (hex_digit (N_of_ascii c mod 16)) "")).

Fixpoint quote (s : string) : string :=
  match s with
  | "" => ""
  | String c r => quote_byte c +:+ quote r
  end.

(** *** [str.format_map] *)

(** What a call of [format_map] comes to.  [FmtOutOfModel] marks format
    strings whose fields use a conversion ([!r]), a format spec ([:>5]),
    attribute or index access ([a.b], [a[0]]) or non-ASCII field names;
    the model gives no answer for those. *)
Inductive fmt_result : Type :=
  | FmtOk (s : string)
  | FmtKeyError (key : string)
  | FmtValueError
  | FmtOutOfModel.

#[global] Instance fmt_result_eq_dec : EqDecision fmt_result.
Proof. solve_decision. Defined.

(** Prepend already rendered text to the rendering of the remainder. *)
Definition fmt_emit (pre : string) (r : fmt_result) : fmt_result :=
  match r with
  | FmtOk s => FmtOk (pre +:+ s)
  | e => e
  end.

Definition is_digit (c : ascii) : bool := in_range 48 57 c.

Fixpoint all_digits (s : string) : bool :=
  match s with
  | "" => true
  | String c r => is_digit c && all_digits r
  end.

(** A replacement field [{name}] looked up in the mapping: an empty or
    all-digit name is a positional field, which [format_map] rejects;
    any other name is a key of the mapping. *)
Definition fmt_field (mapping : gmap string pyval) (name : string)
    (rest : fmt_result) : fmt_result :=
  if all_digits name then FmtValueError
  else match mapping !! name with
       | Some v => fmt_emit (str v) rest
       | None => FmtKeyError name
       end.

(** The markup scanner.  [field = None] while scanning literal text,
    [field = Some name] while inside a replacement field whose name so
    far is [name].  [{{] and [}}] are escapes; a lone brace is a
    [ValueError]. *)
Fixpoint format_scan (mapping : gmap string pyval) (field : option string)
    (s : string) : fmt_result :=
  match field, s with
  | None, "" => FmtOk ""
  | None, String c r =>
      if bool_decide (c = "{"%char) then
        match r with
        | "" => FmtValueError
        | String c' r' =>
            if bool_decide (c' = "{"%char)
            then fmt_emit "{" (format_scan mapping None r')
            else format_scan mapping (Some "") r
        end
      else if bool_decide (c = "}"%char) then
        match r with
        | String c' r' =>
            if bool_decide (c' = "}"%char)
            then fmt_emit "}" (format_scan mapping None r')
            else FmtValueError
        | "" => FmtValueError
        end
      else fmt_emit (String c "") (format_scan mapping None r)
  | Some name, "" => FmtValueError
  | Some name, String c r =>
      if bool_decide (c = "}"%char) then
        fmt_field mapping name (format_scan mapping None r)
      else if bool_decide (c = "{"%char) then FmtValueError
      else if bool_decide (c = "["%char) || bool_decide (c = "."%char)
              || bool_decide (c = "!"%char) || bool_decide (c = ":"%char)
              || (128 <=? N_of_ascii c)%N
      then FmtOutOfModel
      else format_scan mapping (Some (name +:+ String c "")) r
  end.

Definition format_map (template : string) (mapping : gmap string pyval)
  : fmt_result :=
  format_scan mapping None template.

End Py.

Import Py.

(** ** The object store and the effect monad *)

(** Python exceptions the modelled code can raise. *)
Inductive exn : Type :=
  | KeyError (key : string)
  | ValueError
  | AttributeError
  | OutOfModel.

Inductive res (A : Type) : Type :=
  | Ok (a : A)
  | Raise (e : exn).
Arguments Ok {A} a.
Arguments Raise {A} e.

Definition loc := positive.

(** A [Route] instance: the attributes bound by [Route.__init__]. *)
Record Route : Type := mkRoute {
  path : string;
  method : string;
  params : gmap string pyval;
  channel_id : pyval;
  guild_id : pyval;
  webhook_id : pyval;
  webhook_token : pyval;
  known_bucket : option string;
}.

(** Objects on the heap: [Route] instances and objects of other classes. *)
Inductive pyobject : Type :=
  | ORoute (r : Route)
  | OOther.

(** The body of a request: a scalar, a dict literal in source order, or an
    object the model does not look into (an aiohttp [FormData], say). *)
#[warnings="-register-all"]
Inductive pydata : Type :=
  | DVal (v : pyval)
  | DDict (items : list (string * pydata))
  | DOpaque (id : N).

(** An optional keyword argument whose default is the [MISSING] sentinel. *)
Inductive absent (A : Type) : Type :=
  | MISSING
  | Given (a : A).
Arguments MISSING {A}.
Arguments Given {A} a.

(** One call of [self.request(route, data=..., params=..., reason=...)];
    a field is [None] when the keyword is not passed. *)
Record RequestCall : Type := mkCall {
  rc_route : loc;
  rc_data : option pydata;
  rc_params : option (gmap string pyval);
  rc_reason : option (absent (option string));
}.

(** The world a method runs in: the heap and the log of request calls. *)
Record world : Type := mkWorld {
  heap : gmap loc pyobject;
  sent : list RequestCall;
}.

Definition M (A : Type) : Type := world → res A * world.

#[global] Instance M_ret : MRet M := λ A a w, (Ok a, w).
#[global] Instance M_bind : MBind M := λ A B f m w,
  match m w with
  | (Ok a, w') => f a w'
  | (Raise e, w') => (Raise e, w')
  end.

Definition raise {A} (e : exn) : M A := λ w, (Raise e, w).

(** [self.attr] on an object expected to be a [Route]. *)
Definition getattr {A} (self : loc) (attr : Route → A) : M A := λ w,
  match heap w !! self with
  | Some (ORoute r) => (Ok (attr r), w)
  | _ => (Raise AttributeError, w)
  end.

(** [isinstance(o, Route)] *)
Definition isinstance_Route (o : loc) : M bool := λ w,
  match heap w !! o with
  | Some (ORoute _) => (Ok true, w)
  | _ => (Ok false, w)
  end.

(** Allocation of a new object at an address not yet in use. *)
Definition alloc (o : pyobject) : M loc := λ w,
  let l := fresh (dom (heap w)) in
  (Ok l, mkWorld (<[l := o]> (heap w)) (sent w)).

(** [route.known_bucket = b] *)
Definition set_known_bucket (self : loc) (b : option string) : M unit := λ w,
  match heap w !! self with
  | Some (ORoute r) =>
      (Ok (),
       mkWorld (<[self := ORoute (mkRoute (path r) (method r) (params r)
                   (channel_id r) (guild_id r) (webhook_id r)
                   (webhook_token r) b)]> (heap w)) (sent w))
  | _ => (Raise AttributeError, w)
  end.

(** ** [dis_snek/api/http/route.py] *)

(** [__api_version__] of [dis_snek/client/const.py] *)
Definition __api_version__ : Z := 10.

(** [dict.get(key)], [None] when the key is absent. *)
Definition dict_get (d : gmap string pyval) (k : string) : pyval :=
  default PyNone (d !! k).

Section route.

(** Python's [hash] on [str]; seeded per process, so left abstract. *)
Variable str_hash : string → Z.

Definition BASE : string := "https://discord.com/api/v" +:+ pretty __api_version__.

(** [Route(method, path, **parameters)] *)
Definition Route_new (method path : string) (parameters : gmap string pyval)
  : M loc :=
  alloc (ORoute {|
    path := path;
    method := method;
    params := parameters;
    channel_id := dict_get parameters "channel_id";
    guild_id := dict_get parameters "guild_id";
    webhook_id := dict_get parameters "webhook_id";
    webhook_token := dict_get parameters "webhook_token";
    known_bucket := None |}).

(** [Route.endpoint] *)
Definition endpoint (self : loc) : M string :=
  m ← getattr self method;
  p ← getattr self path;
  mret (m +:+ " " +:+ p).

(** The tail of [Route.rl_bucket], reached when no discovered bucket is
    returned: the provisional key. *)
Definition provisional_key (self : loc) : M string :=
  tok ← getattr self webhook_token;
  if truthy tok then
    wid ← getattr self webhook_id;
    tok ← getattr self webhook_token;
    cid ← getattr self channel_id;
    gid ← getattr self guild_id;
    e ← endpoint self;
    mret (str wid +:+ str tok +:+ ":" +:+ str cid +:+ ":" +:+ str gid +:+ ":" +:+ e)
  else
    cid ← getattr self channel_id;
    gid ← getattr self guild_id;
    e ← endpoint self;
    mret (str cid +:+ ":" +:+ str gid +:+ ":" +:+ e).

(** [Route.rl_bucket] *)
Definition rl_bucket (self : loc) : M string :=
  kb ← getattr self known_bucket;
  match kb with
  | Some b => if truthy (PyStr b) then mret b else provisional_key self
  | None => provisional_key self
  end.

(** What [__eq__] returns: a [bool], or [NotImplemented]. *)
Inductive eq_result : Type :=
  | EqBool (b : bool)
  | NotImplemented.

(** [Route.__eq__] *)
Definition Route___eq__ (self other : loc) : M eq_result :=
  same_class ← isinstance_Route other;
  if same_class : bool then
    a ← rl_bucket self;
    b ← rl_bucket other;
    mret (EqBool (bool_decide (a = b)))
  else mret NotImplemented.

(** [Route.__hash__] *)
Definition Route___hash__ (self : loc) : M Z :=
  k ← rl_bucket self;
  mret (str_hash k).

(** [Route.__repr__] *)
Definition Route___repr__ (self : loc) : M string :=
  e ← endpoint self;
  mret ("<Route " +:+ e +:+ ">").

(** [Route.__str__] *)
Definition Route___str__ (self : loc) : M string :=
  endpoint self.

(** The mapping handed to [format_map]: string values are quoted, the
    others are passed as they are. *)
Definition quote_param (v : pyval) : pyval :=
  match v with
  | PyStr s => PyStr (quote s)
  | _ => v
  end.

Definition lift_fmt (r : fmt_result) : M string :=
  match r with
  | FmtOk s => mret s
  | FmtKeyError k => raise (KeyError k)
  | FmtValueError => raise ValueError
  | FmtOutOfModel => raise OutOfModel
  end.

(** [Route.url] *)
Definition url (self : loc) : M string :=
  p ← getattr self path;
  ps ← getattr self params;
  lift_fmt (format_map (BASE +:+ p) (quote_param <$> ps)).

End route.

(** ** The request mixins under [dis_snek/api/http/http_requests/] *)

(** Modelled from the spec: [dict_filter_none] of
    [dis_snek/client/utils/serializer.py], which is not among the sources;
    it keeps the entries whose value is not [None]. *)
Definition dict_filter_none (d : gmap string pyval) : gmap string pyval :=
  filter (λ kv, kv.2 ≠ PyNone) d.

Section requests.

(** The dispatcher behind [self.request] is outside these modules: what it
    answers to a call, given the calls made before, is left abstract. *)
Variable transport : list RequestCall → RequestCall → res pydata.

(** [await self.request(route, data=..., params=..., reason=...)]: the call
    is logged and the dispatcher's answer (or exception) comes back. *)
Definition request (route : loc) (data : option pydata)
    (params : option (gmap string pyval))
    (reason : option (absent (option string))) : M pydata := λ w,
  let c := mkCall route data params reason in
  (transport (sent w) c, mkWorld (heap w) (sent w ++ [c])).

(** *** [users.py] *)

Definition get_user (user_id : pyval) : M pydata :=
  route ← Route_new "GET" ("/users/" +:+ str user_id) ∅;
  request route None None None.

Definition get_current_user : M pydata :=
  get_user (PyStr "@me").

Definition modify_client_user (payload : pydata) : M pydata :=
  route ← Route_new "PATCH" "/users/@me" ∅;
  request route (Some payload) None None.

Definition get_user_guilds : M pydata :=
  route ← Route_new "GET" "/users/@me/guilds" ∅;
  request route None None None.

Definition leave_guild (guild_id : pyval) : M pydata :=
  route ← Route_new "DELETE" ("/users/@me/guilds/" +:+ str guild_id) ∅;
  request route None None None.

Definition create_dm (recipient_id : pyval) : M pydata :=
  route ← Route_new "POST" "/users/@me/channels" ∅;
  request route (Some (DDict [("recipient_id", DVal recipient_id)])) None None.

Definition create_group_dm (payload : pydata) : M pydata :=
  route ← Route_new "POST" "/users/@me/channels" ∅;
  request route (Some payload) None None.

Definition get_user_connections : M pydata :=
  route ← Route_new "GET" "/users/@me/connections" ∅;
  request route None None None.

Definition group_dm_add_recipient (channel_id user_id : pyval)
    (access_token : string) (nick : pyval) : M pydata :=
  route ← Route_new "PUT"
    ("/channels/" +:+ str channel_id +:+ "/recipients/" +:+ str user_id) ∅;
  request route
    (Some (DDict [("access_token", DVal (PyStr access_token)); ("nick", DVal nick)]))
    None None.

Definition group_dm_remove_recipient (channel_id user_id : pyval) : M pydata :=
  route ← Route_new "DELETE"
    ("/channels/" +:+ str channel_id +:+ "/recipients/" +:+ str user_id) ∅;
  request route None None None.

Definition modify_current_user_nick (guild_id nickname : pyval) : M pydata :=
  route ← Route_new "PATCH" ("/guilds/" +:+ str guild_id +:+ "/members/@me/nick") ∅;
  request route (Some (DDict [("nick", DVal nickname)])) None None.

(** *** [stickers.py] *)

Definition get_sticker (sticker_id : pyval) : M pydata :=
  route ← Route_new "GET" ("/stickers/" +:+ str sticker_id) ∅;
  request route None None None.

Definition list_nitro_sticker_packs : M pydata :=
  route ← Route_new "GET" "/sticker-packs" ∅;
  request route None None None.

Definition list_guild_stickers (guild_id : pyval) : M pydata :=
  route ← Route_new "GET" ("/guilds/" +:+ str guild_id +:+ "/stickers") ∅;
  request route None None None.

Definition get_guild_sticker (guild_id sticker_id : pyval) : M pydata :=
  route ← Route_new "GET"
    ("/guilds/" +:+ str guild_id +:+ "/stickers/" +:+ str sticker_id) ∅;
  request route None None None.

Definition create_guild_sticker (payload : pydata) (guild_id : pyval)
    (reason : absent (option string)) : M pydata :=
  route ← Route_new "POST" ("/guild/" +:+ str guild_id +:+ "/stickers") ∅;
  request route (Some payload) None (Some reason).

Definition modify_guild_sticker (payload : pydata) (guild_id sticker_id : pyval)
    (reason : absent (option string)) : M pydata :=
  route ← Route_new "PATCH"
    ("/guild/" +:+ str guild_id +:+ "/stickers/" +:+ str sticker_id) ∅;
  request route (Some payload) None (Some reason).

Definition delete_guild_sticker (guild_id sticker_id : pyval)
    (reason : absent (option string)) : M pydata :=
  route ← Route_new "DELETE"
    ("/guild/" +:+ str guild_id +:+ "/stickers/" +:+ str sticker_id) ∅;
  request route None None (Some reason).

(** *** [webhooks.py] *)

Definition create_webhook (channel_id : pyval) (name : string)
    (avatar : pydata) : M pydata :=
  route ← Route_new "POST" ("/channels/" +:+ str channel_id +:+ "/webhooks") ∅;
  request route
    (Some (DDict [("name", DVal (PyStr name)); ("avatar", avatar)])) None None.

Definition get_channel_webhooks (channel_id : pyval) : M pydata :=
  route ← Route_new "GET" ("/channels/" +:+ str channel_id +:+ "/webhooks") ∅;
  request route None None None.

Definition get_guild_webhooks (guild_id : pyval) : M pydata :=
  route ← Route_new "GET" ("/guilds/" +:+ str guild_id +:+ "/webhooks") ∅;
  request route None None None.

(** The endpoint shared by [get_webhook], [modify_webhook] and
    [delete_webhook]:
    [f"/webhooks/{webhook_id}{f'/{webhook_token}' if webhook_token else ''}"] *)
Definition webhook_endpoint (webhook_id webhook_token : pyval) : string :=
  "/webhooks/" +:+ str webhook_id
    +:+ (if truthy webhook_token then "/" +:+ str webhook_token else "").

Definition get_webhook (webhook_id webhook_token : pyval) : M pydata :=
  let endpoint := webhook_endpoint webhook_id webhook_token in
  route ← Route_new "GET" endpoint ∅;
  request route None None None.

Definition modify_webhook (webhook_id : pyval) (name : string) (avatar : pydata)
    (channel_id : pyval) (webhook_token : pyval) : M pydata :=
  let endpoint := webhook_endpoint webhook_id webhook_token in
  route ← Route_new "PATCH" endpoint ∅;
  request route
    (Some (DDict [("name", DVal (PyStr name)); ("avatar", avatar);
                  ("channel_id", DVal channel_id)])) None None.

Definition delete_webhook (webhook_id webhook_token : pyval) : M pydata :=
  let endpoint := webhook_endpoint webhook_id webhook_token in
  route ← Route_new "DELETE" endpoint ∅;
  request route None None None.

Definition execute_webhook (webhook_id : pyval) (webhook_token : string)
    (payload : pydata) (wait : bool) (thread_id : pyval) : M pydata :=
  route ← Route_new "POST"
    ("/webhooks/" +:+ str webhook_id +:+ "/" +:+ webhook_token) ∅;
  request route (Some payload)
    (Some (dict_filter_none
       {[ "wait" := PyStr (if wait then "true" else "false");
          "thread_id" := thread_id ]}))
    None.

Definition get_webhook_message (webhook_id : pyval) (webhook_token : string)
    (message_id : pyval) : M pydata :=
  route ← Route_new "GET"
    ("/webhooks/" +:+ str webhook_id +:+ "/" +:+ webhook_token
       +:+ "/messages/" +:+ str message_id) ∅;
  request route None None None.

Definition edit_webhook_message (webhook_id : pyval) (webhook_token : string)
    (message_id : pyval) (payload : pydata) : M pydata :=
  route ← Route_new "PATCH"
    ("/webhooks/" +:+ str webhook_id +:+ "/" +:+ webhook_token
       +:+ "/messages/" +:+ str message_id) ∅;
  request route (Some payload) None None.

Definition delete_webhook_message (webhook_id : pyval) (webhook_token : string)
    (message_id : pyval) : M pydata :=
  route ← Route_new "DELETE"
    ("/webhooks/" +:+ str webhook_id +:+ "/" +:+ webhook_token
       +:+ "/messages/" +:+ str message_id) ∅;
  request route None None None.

(** *** Every request function, as one invocation with its arguments *)

Inductive invocation : Type :=
  | GetCurrentUser
  | GetUser (user_id : pyval)
  | ModifyClientUser (payload : pydata)
  | GetUserGuilds
  | LeaveGuild (guild_id : pyval)
  | CreateDm (recipient_id : pyval)
  | CreateGroupDm (payload : pydata)
  | GetUserConnections
  | GroupDmAddRecipient (channel_id user_id : pyval) (access_token : string)
      (nick : pyval)
  | GroupDmRemoveRecipient (channel_id user_id : pyval)
  | ModifyCurrentUserNick (guild_id nickname : pyval)
  | GetSticker (sticker_id : pyval)
  | ListNitroStickerPacks
  | ListGuildStickers (guild_id : pyval)
  | GetGuildSticker (guild_id sticker_id : pyval)
  | CreateGuildSticker (payload : pydata) (guild_id : pyval)
      (reason : absent (option string))
  | ModifyGuildSticker (payload : pydata) (guild_id sticker_id : pyval)
      (reason : absent (option string))
  | DeleteGuildSticker (guild_id sticker_id : pyval)
      (reason : absent (option string))
  | CreateWebhook (channel_id : pyval) (name : string) (avatar : pydata)
  | GetChannelWebhooks (channel_id : pyval)
  | GetGuildWebhooks (guild_id : pyval)
  | GetWebhook (webhook_id webhook_token : pyval)
  | ModifyWebhook (webhook_id : pyval) (name : string) (avatar : pydata)
      (channel_id webhook_token : pyval)
  | DeleteWebhook (webhook_id webhook_token : pyval)
  | ExecuteWebhook (webhook_id : pyval) (webhook_token : string)
      (payload : pydata) (wait : bool) (thread_id : pyval)
  | GetWebhookMessage (webhook_id : pyval) (webhook_token : string)
      (message_id : pyval)
  | EditWebhookMessage (webhook_id : pyval) (webhook_token : string)
      (message_id : pyval) (payload : pydata)
  | DeleteWebhookMessage (webhook_id : pyval) (webhook_token : string)
      (message_id : pyval).

Definition perform (i : invocation) : M pydata :=
  match i with
  | GetCurrentUser => get_current_user
  | GetUser u => get_user u
  | ModifyClientUser p => modify_client_user p
  | GetUserGuilds => get_user_guilds
  | LeaveGuild g => leave_guild g
  | CreateDm r => create_dm r
  | CreateGroupDm p => create_group_dm p
  | GetUserConnections => get_user_connections
  | GroupDmAddRecipient c u a n => group_dm_add_recipient c u a n
  | GroupDmRemoveRecipient c u => group_dm_remove_recipient c u
  | ModifyCurrentUserNick g n => modify_current_user_nick g n
  | GetSticker s => get_sticker s
  | ListNitroStickerPacks => list_nitro_sticker_packs
  | ListGuildStickers g => list_guild_stickers g
  | GetGuildSticker g s => get_guild_sticker g s
  | CreateGuildSticker p g r => create_guild_sticker p g r
  | ModifyGuildSticker p g s r => modify_guild_sticker p g s r
  | DeleteGuildSticker g s r => delete_guild_sticker g s r
  | CreateWebhook c n a => create_webhook c n a
  | GetChannelWebhooks c => get_channel_webhooks c
  | GetGuildWebhooks g => get_guild_webhooks g
  | GetWebhook i t => get_webhook i t
  | ModifyWebhook i n a c t => modify_webhook i n a c t
  | DeleteWebhook i t => delete_webhook i t
  | ExecuteWebhook i t p w th => execute_webhook i t p w th
  | GetWebhookMessage i t m => get_webhook_message i t m
  | EditWebhookMessage i t m p => edit_webhook_message i t m p
  | DeleteWebhookMessage i t m => delete_webhook_message i t m
  end.

End requests.

(** ** The bucket key as a value *)

Definition bucket_form (ids : string) (r : Route) : string :=
  ids +:+ str (channel_id r) +:+ ":" +:+ str (guild_id r) +:+ ":"
      +:+ method r +:+ " " +:+ path r.

(** The provisional key as the code computes it: identifiers go through
    [str], so an absent one reads [None]; the webhook form is chosen by
    the truth value of the token. *)
Definition provisional_of (r : Route) : string :=
  if truthy (webhook_token r)
  then bucket_form (str (webhook_id r) +:+ str (webhook_token r) +:+ ":") r
  else bucket_form "" r.

(** The effective key as the code computes it: the discovered id when it
    is a non-empty string, the provisional key otherwise. *)
Definition effective_of (r : Route) : string :=
  match known_bucket r with
  | Some b => if bool_decide (b = "") then provisional_of r else b
  | None => provisional_of r
  end.

(** The effective key in the words of the data model: the discovered id
    when set; else the provisional key, in its webhook form when a token
    is present, with a missing identifier rendered as the empty string. *)
Definition id_or_empty (v : pyval) : string :=
  match v with
  | PyNone => ""
  | _ => str v
  end.

Definition spec_bucket_key (r : Route) : string :=
  match known_bucket r with
  | Some b => b
  | None =>
      match webhook_token r with
      | PyNone =>
          id_or_empty (channel_id r) +:+ ":" +:+ id_or_empty (guild_id r)
            +:+ ":" +:+ method r +:+ " " +:+ path r
      | tok =>
          id_or_empty (webhook_id r) +:+ id_or_empty tok +:+ ":"
            +:+ id_or_empty (channel_id r) +:+ ":" +:+ id_or_empty (guild_id r)
            +:+ ":" +:+ method r +:+ " " +:+ path r
      end
  end.

(** *** Path templates *)

(** A path template is literal text interleaved with [{name}] placeholders. *)
Inductive segment : Type :=
  | Lit (text : string)
  | Hole (name : string).

Definition segment_text (g : segment) : string :=
  match g with
  | Lit text => text
  | Hole name => "{" +:+ name +:+ "}"
  end.

(** The template as it is written in a path string. *)
Fixpoint template_text (t : list segment) : string :=
  match t with
  | [] => ""
  | g :: t' => segment_text g +:+ template_text t'
  end.

(** A placeholder filled from the keyword parameters: a string value is
    percent-encoded, any other value is rendered by [str]. *)
Definition fill (parameters : gmap string pyval) (name : string) : string :=
  match parameters !! name with
  | Some (PyStr s) => quote s
  | Some v => str v
  | None => ""
  end.

Fixpoint substitute (parameters : gmap string pyval) (t : list segment) : string :=
  match t with
  | [] => ""
  | Lit text :: t' => text +:+ substitute parameters t'
  | Hole name :: t' => fill parameters name +:+ substitute parameters t'
  end.

Fixpoint string_forall (P : ascii → bool) (s : string) : bool :=
  match s with
  | "" => true
  | String c r => P c && string_forall P r
  end.

Definition is_brace (c : ascii) : bool :=
  bool_decide (c = "{"%char) || bool_decide (c = "}"%char).

(** Characters of a plain placeholder name: ASCII, and none of the
    characters with a meaning inside a replacement field. *)
Definition name_char (c : ascii) : bool :=
  negb (is_brace c)
  && negb (bool_decide (c = "["%char) || bool_decide (c = "."%char)
           || bool_decide (c = "!"%char) || bool_decide (c = ":"%char)
           || (128 <=? N_of_ascii c)%N).

(** A well-formed template over given parameters: literal text has no
    brace; a placeholder has a plain name that is not a number, and a
    keyword parameter of that name was passed. *)
Definition segment_ok (parameters : gmap string pyval) (g : segment) : bool :=
  match g with
  | Lit text => string_forall (λ c, negb (is_brace c)) text
  | Hole name =>
      string_forall name_char name && negb (all_digits name)
      && bool_decide (is_Some (parameters !! name))
  end.

Definition template_ok (parameters : gmap string pyval) (t : list segment) : bool :=
  forallb (segment_ok parameters) t.

(** *** Which invocations take webhook credentials *)

(** The webhook id an invocation is given and the token text it puts
    behind it in the path ([None] when the optional token is falsy). *)
Definition webhook_credentials (i : invocation) : option (pyval * option string) :=
  let optional (t : pyval) := if truthy t then Some (str t) else None in
  match i with
  | GetWebhook wid t => Some (wid, optional t)
  | ModifyWebhook wid _ _ _ t => Some (wid, optional t)
  | DeleteWebhook wid t => Some (wid, optional t)
  | ExecuteWebhook wid t _ _ _ => Some (wid, Some t)
  | GetWebhookMessage wid t _ => Some (wid, Some t)
  | EditWebhookMessage wid t _ _ => Some (wid, Some t)
  | DeleteWebhookMessage wid t _ => Some (wid, Some t)
  | _ => None
  end.

(** *** The one call of each request function *)

(** The arguments of a call of [request]: the method and the path of the
    route it is given, and the keywords [data], [params] and [reason],
    each [None] when it is not passed. *)
Record call_shape : Type := mkShape {
  cs_method : string;
  cs_path : string;
  cs_data : option pydata;
  cs_params : option (gmap string pyval);
  cs_reason : option (absent (option string));
}.

(** For each request function, the call its [self.request(...)] line
    makes of the arguments: the f-string of the path filled with them,
    and the keywords passed. *)
Definition shape_of (i : invocation) : call_shape :=
  match i with
  | GetCurrentUser => mkShape "GET" "/users/@me" None None None
  | GetUser user_id =>
      mkShape "GET" ("/users/" +:+ str user_id) None None None
  | ModifyClientUser payload =>
      mkShape "PATCH" "/users/@me" (Some payload) None None
  | GetUserGuilds => mkShape "GET" "/users/@me/guilds" None None None
  | LeaveGuild guild_id =>
      mkShape "DELETE" ("/users/@me/guilds/" +:+ str guild_id) None None None
  | CreateDm recipient_id =>
      mkShape "POST" "/users/@me/channels"
        (Some (DDict [("recipient_id", DVal recipient_id)])) None None
  | CreateGroupDm payload =>
      mkShape "POST" "/users/@me/channels" (Some payload) None None
  | GetUserConnections => mkShape "GET" "/users/@me/connections" None None None
  | GroupDmAddRecipient channel_id user_id access_token nick =>
      mkShape "PUT"
        ("/channels/" +:+ str channel_id +:+ "/recipients/" +:+ str user_id)
        (Some (DDict [("access_token", DVal (PyStr access_token));
                      ("nick", DVal nick)])) None None
  | GroupDmRemoveRecipient channel_id user_id =>
      mkShape "DELETE"
        ("/channels/" +:+ str channel_id +:+ "/recipients/" +:+ str user_id)
        None None None
  | ModifyCurrentUserNick guild_id nickname =>
      mkShape "PATCH" ("/guilds/" +:+ str guild_id +:+ "/members/@me/nick")
        (Some (DDict [("nick", DVal nickname)])) None None
  | GetSticker sticker_id =>
      mkShape "GET" ("/stickers/" +:+ str sticker_id) None None None
  | ListNitroStickerPacks => mkShape "GET" "/sticker-packs" None None None
  | ListGuildStickers guild_id =>
      mkShape "GET" ("/guilds/" +:+ str guild_id +:+ "/stickers") None None None
  | GetGuildSticker guild_id sticker_id =>
      mkShape "GET"
        ("/guilds/" +:+ str guild_id +:+ "/stickers/" +:+ str sticker_id)
        None None None
  | CreateGuildSticker payload guild_id reason =>
      mkShape "POST" ("/guild/" +:+ str guild_id +:+ "/stickers")
        (Some payload) None (Some reason)
  | ModifyGuildSticker payload guild_id sticker_id reason =>
      mkShape "PATCH"
        ("/guild/" +:+ str guild_id +:+ "/stickers/" +:+ str sticker_id)
        (Some payload) None (Some reason)
  | DeleteGuildSticker guild_id sticker_id reason =>
      mkShape "DELETE"
        ("/guild/" +:+ str guild_id +:+ "/stickers/" +:+ str sticker_id)
        None None (Some reason)
  | CreateWebhook channel_id name avatar =>
      mkShape "POST" ("/channels/" +:+ str channel_id +:+ "/webhooks")
        (Some (DDict [("name", DVal (PyStr name)); ("avatar", avatar)])) None None
  | GetChannelWebhooks channel_id =>
      mkShape "GET" ("/channels/" +:+ str channel_id +:+ "/webhooks")
        None None None
  | GetGuildWebhooks guild_id =>
      mkShape "GET" ("/guilds/" +:+ str guild_id +:+ "/webhooks") None None None
  | GetWebhook webhook_id webhook_token =>
      mkShape "GET"
        ("/webhooks/" +:+ str webhook_id
           +:+ (if truthy webhook_token then "/" +:+ str webhook_token else ""))
        None None None
  | ModifyWebhook webhook_id name avatar channel_id webhook_token =>
      mkShape "PATCH"
        ("/webhooks/" +:+ str webhook_id
           +:+ (if truthy webhook_token then "/" +:+ str webhook_token else ""))
        (Some (DDict [("name", DVal (PyStr name)); ("avatar", avatar);
                      ("channel_id", DVal channel_id)])) None None
  | DeleteWebhook webhook_id webhook_token =>
      mkShape "DELETE"
        ("/webhooks/" +:+ str webhook_id
           +:+ (if truthy webhook_token then "/" +:+ str webhook_token else ""))
        None None None
  | ExecuteWebhook webhook_id webhook_token payload wait thread_id =>
      mkShape "POST" ("/webhooks/" +:+ str webhook_id +:+ "/" +:+ webhook_token)
        (Some payload)
        (Some (dict_filter_none
                 {[ "wait" := PyStr (if wait then "true" else "false");
                    "thread_id" := thread_id ]}))
        None
  | GetWebhookMessage webhook_id webhook_token message_id =>
      mkShape "GET"
        ("/webhooks/" +:+ str webhook_id +:+ "/" +:+ webhook_token
           +:+ "/messages/" +:+ str message_id)
        None None None
  | EditWebhookMessage webhook_id webhook_token message_id payload =>
      mkShape "PATCH"
        ("/webhooks/" +:+ str webhook_id +:+ "/" +:+ webhook_token
           +:+ "/messages/" +:+ str message_id)
        (Some payload) None None
  | DeleteWebhookMessage webhook_id webhook_token message_id =>
      mkShape "DELETE"
        ("/webhooks/" +:+ str webhook_id +:+ "/" +:+ webhook_token
           +:+ "/messages/" +:+ str message_id)
        None None None
  end.

(** *** Hash stability across discovery, as a statement *)

(** For a route at [l] whose provisional key differs from [b]: the hash
    taken before [known_bucket = b] differs from the hash taken after. *)
Definition hash_moves_on_discovery (str_hash : string → Z) (w : world)
    (l : loc) (b : string) : Prop :=
  ∀ k h1 w1 w2 h2 w3,
    provisional_key l w = (Ok k, w) →
    k ≠ b →
    Route___hash__ str_hash l w = (Ok h1, w1) →
    set_known_bucket l (Some b) w1 = (Ok (), w2) →
    Route___hash__ str_hash l w2 = (Ok h2, w3) →
    h1 ≠ h2.

(** *** Read-only computations *)

(** A computation that hands the world back as it received it: no
    attribute written, no object allocated, no request sent. *)
Definition read_only {A} (m : M A) : Prop :=
  ∀ w, (m w).2 = w.

(** ** The dispatcher *)

Module Dispatcher.

(** Modelled from the spec: the Dispatcher of section 4.4, whose code (the
    HTTP client behind [request]) is not among the sources.  One call is a
    machine over the lifecycle states the spec lists; time, and so the
    length of a wait or of a back-off sleep, is not modelled. *)
Inductive lifecycle : Type :=
  | PENDING
  | GLOBAL_WAIT
  | BUCKET_WAIT
  | SENDING
  | SUCCESS
  | THROTTLED
  | SERVER_ERROR
  | CLIENT_ERROR
  | NETWORK_ERROR
  | UNCLASSIFIED.

(** Modelled from the spec: what the transport's [exchange] hands back
    (section 6), with the body already decoded: the payload of a success,
    or the remote error code and message. *)
Record response : Type := mkResponse {
  status : Z;
  payload : pydata;
  error_code : Z;
  error_message : string;
}.

(** Modelled from the spec: an exchange ends in a response, or fails on
    the network (a timeout counts as such, section 5). *)
Inductive exchanged : Type :=
  | Replied (r : response)
  | Failed.

(** Modelled from the spec: the error taxonomy of section 7. *)
Inductive error_kind : Type :=
  | Throttled
  | ServerUnavailable
  | NetworkFailure
  | RemoteRejected
  | ProtocolViolation.

(** Modelled from the spec: what [send] gives its caller (sections 6 and
    7): the decoded body, or one uniform error carrying kind, status,
    decoded remote code and message, and the originating route. *)
Inductive outcome : Type :=
  | Returned (body : pydata)
  | Surfaced (kind : error_kind) (status : option Z) (code : option Z)
      (message : string) (route : loc).

(** Modelled from the spec: step 5 of section 4.4 sorts a response by its
    status into 2xx, 429, 5xx and the other 4xx; a network failure is its
    own class.  The spec names no class for any other status, for which
    the model stops in [UNCLASSIFIED]. *)
Definition classify (x : exchanged) : lifecycle :=
  match x with
  | Failed => NETWORK_ERROR
  | Replied r =>
      if bool_decide (200 ≤ status r < 300) then SUCCESS
      else if bool_decide (status r = 429) then THROTTLED
      else if bool_decide (500 ≤ status r < 600) then SERVER_ERROR
      else if bool_decide (400 ≤ status r < 500) then CLIENT_ERROR
      else UNCLASSIFIED
  end.

(** Modelled from the spec: one call in flight: where it is in its
    lifecycle, how many network exchanges it has performed, the retries
    it has left for throttling and for 5xx or network failures, and the
    last exchange's result. *)
Record call : Type := mkCallState {
  phase : lifecycle;
  exchanges : nat;
  throttle_left : nat;
  failure_left : nat;
  last : option exchanged;
}.

Section dispatcher.

(** The bounded retry counts of section 4.4 (3 by default for throttling,
    a small fixed count for 5xx and network failures). *)
Variables throttle_retries failure_retries : nat.

(** The transport: the result of the [n]-th exchange of this call. *)
Variable exchange : nat → exchanged.

Definition start : call :=
  mkCallState PENDING 0 throttle_retries failure_retries None.

Definition goto (p : lifecycle) (c : call) : call :=
  mkCallState p (exchanges c) (throttle_left c) (failure_left c) (last c).

(** Modelled from the spec: the numbered steps of section 4.4.  Resolution
    and the two admissions lead to [SENDING]; the exchange is performed
    there and its result classified; a throttled or failed attempt loops
    back to the global admission while it has retries left; success and
    the other 4xx are terminal. *)
Definition step (c : call) : call :=
  match phase c with
  | PENDING => goto GLOBAL_WAIT c
  | GLOBAL_WAIT => goto BUCKET_WAIT c
  | BUCKET_WAIT => goto SENDING c
  | SENDING =>
      let x := exchange (exchanges c) in
      mkCallState (classify x) (S (exchanges c)) (throttle_left c)
        (failure_left c) (Some x)
  | THROTTLED =>
      match throttle_left c with
      | S n => mkCallState GLOBAL_WAIT (exchanges c) n (failure_left c) (last c)
      | O => c
      end
  | SERVER_ERROR | NETWORK_ERROR =>
      match failure_left c with
      | S n => mkCallState GLOBAL_WAIT (exchanges c) (throttle_left c) n (last c)
      | O => c
      end
  | SUCCESS | CLIENT_ERROR | UNCLASSIFIED => c
  end.

(** Modelled from the spec: the call is over when it has succeeded, when
    it was rejected, or when a retryable class has no retry left. *)
Definition terminal (c : call) : bool :=
  match phase c with
  | SUCCESS | CLIENT_ERROR | UNCLASSIFIED => true
  | THROTTLED => bool_decide (throttle_left c = O)
  | SERVER_ERROR | NETWORK_ERROR => bool_decide (failure_left c = O)
  | PENDING | GLOBAL_WAIT | BUCKET_WAIT | SENDING => false
  end.

Fixpoint run (fuel : nat) (c : call) : call :=
  match fuel with
  | O => c
  | S fuel' => if terminal c then c else run fuel' (step c)
  end.

(** Four machine steps to the first classification, four more per retry. *)
Definition enough_fuel : nat :=
  (4 + 4 * (throttle_retries + failure_retries))%nat.

(** How far a call is from its end: four machine steps per retry left,
    plus the steps to the next classification. *)
Definition rank (p : lifecycle) : nat :=
  match p with
  | PENDING => 4
  | GLOBAL_WAIT => 3
  | BUCKET_WAIT => 2
  | SENDING => 1
  | _ => 0
  end.

Definition distance (c : call) : nat :=
  (4 * (throttle_left c + failure_left c) + rank (phase c))%nat.

(** Modelled from the spec: what a finished call surfaces (sections 4.4
    and 7): the decoded payload on success; [RemoteRejected] with the
    decoded code for the other 4xx; the exhausted retryable classes as
    errors of their own kind. *)
Definition outcome_of (route : loc) (c : call) : option outcome :=
  match phase c, last c with
  | SUCCESS, Some (Replied r) => Some (Returned (payload r))
  | CLIENT_ERROR, Some (Replied r) =>
      Some (Surfaced RemoteRejected (Some (status r)) (Some (error_code r))
              (error_message r) route)
  | THROTTLED, Some (Replied r) =>
      Some (Surfaced Throttled (Some (status r)) (Some (error_code r))
              (error_message r) route)
  | SERVER_ERROR, Some (Replied r) =>
      Some (Surfaced ServerUnavailable (Some (status r)) (Some (error_code r))
              (error_message r) route)
  | NETWORK_ERROR, Some Failed =>
      Some (Surfaced NetworkFailure None None "" route)
  | _, _ => None
  end.

(** Modelled from the spec: [send(route, ...)] of section 6, as the
    outcome of the call together with the number of exchanges it took. *)
Definition send (route : loc) : option outcome * nat :=
  let c := run enough_fuel start in
  (outcome_of route c, exchanges c).

End dispatcher.

End Dispatcher.

Definition is_route (w : world) (l : loc) (r : Route) : Prop :=
  heap w !! l = Some (ORoute r).

(** A route built without keyword parameters. *)
Definition bare_route (m p : string) : Route :=
  mkRoute p m ∅ PyNone PyNone PyNone PyNone None.

(** *** Sample worlds *)

(** [Route("GET", "/x")], alone on the heap. *)
Definition plain_route : Route :=
  mkRoute "/x" "GET" ∅ PyNone PyNone PyNone PyNone None.

Definition plain_world : world :=
  mkWorld {[ 1%positive := ORoute plain_route ]} [].

(** A route built with a webhook id, whose token and discovered bucket
    are both the empty string. *)
Definition empty_token_route : Route :=
  mkRoute "/w" "POST" {[ "webhook_id" := PyInt 7; "webhook_token" := PyStr "" ]}
    PyNone PyNone (PyInt 7) (PyStr "") (Some "").

Definition empty_token_world : world :=
  mkWorld {[ 1%positive := ORoute empty_token_route ]} [].

(** [Route("GET", "/channels/{channel_id}/messages/{message_id}",
    channel_id="a b", message_id=42)] *)
Definition channel_route : Route :=
  mkRoute "/channels/{channel_id}/messages/{message_id}" "GET"
    {[ "channel_id" := PyStr "a b"; "message_id" := PyInt 42 ]}
    (PyStr "a b") PyNone PyNone PyNone None.

Definition channel_world : world :=
  mkWorld {[ 1%positive := ORoute channel_route ]} [].

(** The empty world, and a transport that answers every call alike. *)
Definition w0 : world := mkWorld ∅ [].

Definition echo_transport (history : list RequestCall) (c : RequestCall)
  : res pydata :=
  Ok (DVal PyNone).

(** A simulated 403 response, and a transport that would answer 200 to
    any further attempt. *)
Definition forbidden : Dispatcher.response :=
  Dispatcher.mkResponse 403 (DVal PyNone) 50013 "Missing Permissions".

Definition forbidden_then_ok (n : nat) : Dispatcher.exchanged :=
  match n with
  | O => Dispatcher.Replied forbidden
  | S _ => Dispatcher.Replied (Dispatcher.mkResponse 200 (DDict []) 0 "")
  end.

(** Two routes on one heap: [Route("GET", "/x")] as built, and a route
    with another path whose discovered bucket is the first one's key. *)
Definition twin_world : world :=
  mkWorld {[ 1%positive := ORoute plain_route;
             2%positive := ORoute (mkRoute "/y" "PUT" ∅ PyNone PyNone PyNone
                                     PyNone (Some "None:None:GET /x")) ]} [].

(** Two routes built alike, one after the other, and their keys compared. *)
Definition built_alike (method path : string) (parameters : gmap string pyval)
  : M bool :=
  r1 ← Route_new method path parameters;
  r2 ← Route_new method path parameters;
  k1 ← rl_bucket r1;
  k2 ← rl_bucket r2;
  mret (bool_decide (k1 = k2)).

(** A stand-in for [hash] on strings, for running examples. *)
Definition length_hash (s : string) : Z := Z.of_nat (String.length s).

(** ** Helpers for statements about [quote], paths and keys *)

(** Text free of braces, of a given character. *)
Definition brace_free (s : string) : bool :=
  string_forall (λ c, negb (is_brace c)) s.

Definition free_of (x : ascii) (s : string) : bool :=
  string_forall (λ c, negb (bool_decide (c = x))) s.

(** The value of a hexadecimal digit in upper case. *)
Definition hex_value (c : ascii) : option N :=
  if in_range 48 57 c then Some (N_of_ascii c - 48)%N
  else if in_range 65 70 c then Some (N_of_ascii c - 55)%N
  else None.

(** Reading back one quoted byte: itself, or the byte behind [%XX]. *)
Definition quote_byte_inv (q : string) : option ascii :=
  match q with
  | String c "" => Some c
  | String "%" (String h (String l "")) =>
      match hex_value h, hex_value l with
      | Some a, Some b => Some (ascii_of_N (16 * a + b))
      | _, _ => None
      end
  | _ => None
  end.

(** The characters [quote] can put out: the safe ones and the percent
    sign. *)
Definition quoted_char (c : ascii) : bool :=
  quote_safe c || bool_decide (c = "%"%char).

(** More sample worlds: a path with a space in it, a template with one
    of its two parameters missing, and a path with a stray brace. *)
Definition spaced_world : world :=
  mkWorld {[ 1%positive := ORoute (bare_route "GET" "/users/a b") ]} [].

Definition half_filled_route : Route :=
  mkRoute "/channels/{channel_id}/messages/{message_id}/crosspost" "POST"
    {[ "channel_id" := PyInt 5 ]} (PyInt 5) PyNone PyNone PyNone None.

Definition half_filled_world : world :=
  mkWorld {[ 1%positive := ORoute half_filled_route ]} [].

Definition brace_world : world :=
  mkWorld {[ 1%positive := ORoute (bare_route "GET" "/webhooks/7/to}ken") ]} [].

(** [Route("GET", "/users/{user_id}")]: a placeholder, and no keyword
    parameter for it. *)
Definition unfilled_world : world :=
  mkWorld {[ 1%positive := ORoute (bare_route "GET" "/users/{user_id}") ]} [].

(** [Route("GET", f"/{n}")] for a number [n], and its provisional key. *)
Definition numbered_world (n : nat) : world :=
  mkWorld {[ 1%positive := ORoute (bare_route "GET" ("/" +:+ pretty n)) ]} [].

Definition numbered_key (n : nat) : string := "None:None:GET /" +:+ pretty n.

(** ** [dis_snek/client/mixins/serialization.py] *)

Module Serialization.

(** One attrs field of a class, as [attrs.fields(cls)] lists it: its name
    and whether [__init__] takes it. *)
Record attrs_field : Type := mkField {
  field_name : string;
  field_init : bool;
}.

(** [str.removeprefix("_")] *)
Definition removeprefix_underscore (s : string) : string :=
  match s with
  | String "_" r => r
  | _ => s
  end.

(** [frozenset(field.name for field in attrs.fields(cls))] *)
Definition field_names (fields : list attrs_field) : gset string :=
  list_to_set (field_name <$> fields).

(** [frozenset(field.name.removeprefix("_") for field in attrs.fields(cls)
    if field.init)] *)
Definition init_names (fields : list attrs_field) : gset string :=
  list_to_set
    ((λ f, removeprefix_underscore (field_name f)) <$> filter (λ f, field_init f = true) fields).

(** The class attributes [_keys] and [_init_keys]: for each class, by
    name, the set its own [__dict__] holds, if it holds one. *)
Record class_attrs : Type := mkAttrs {
  _keys : gmap string (gset string);
  _init_keys : gmap string (gset string);
}.

(** The first class of a list that holds the attribute. *)
Fixpoint first_set (held : gmap string (gset string)) (classes : list string)
  : option (gset string) :=
  match classes with
  | [] => None
  | c :: rest =>
      match held !! c with
      | Some keys => Some keys
      | None => first_set held rest
      end
  end.

Section mixin.

(** [attrs.fields(cls)], and the classes that follow [cls] in its method
    resolution order. *)
Variable fields_of : string → list attrs_field.
Variable bases : string → list string.

(** [getattr(cls, name, None)] on a class: the attribute of the first
    class of the method resolution order that holds it, [cls] first. *)
Definition class_getattr (held : gmap string (gset string)) (cls : string)
  : option (gset string) :=
  first_set held (cls :: bases cls).

(** [_get_keys]: what [getattr] finds under [_keys], or else the names of
    the fields, which [setattr] then stores on [cls]. *)
Definition _get_keys (cls : string) (st : class_attrs) : gset string * class_attrs :=
  match class_getattr (_keys st) cls with
  | Some keys => (keys, st)
  | None =>
      let keys := field_names (fields_of cls) in
      (keys, mkAttrs (<[cls := keys]> (_keys st)) (_init_keys st))
  end.

(** [_get_init_keys]: the same under [_init_keys], with the names of the
    fields [__init__] takes, each without its leading underscore. *)
Definition _get_init_keys (cls : string) (st : class_attrs)
  : gset string * class_attrs :=
  match class_getattr (_init_keys st) cls with
  | Some init_keys => (init_keys, st)
  | None =>
      let init_keys := init_names (fields_of cls) in
      (init_keys, mkAttrs (_keys st) (<[cls := init_keys]> (_init_keys st)))
  end.

(** The values held by dicts and attributes. *)
Context {V : Type}.

(** [_filter_kwargs]; with [kwarg_spam] set it also logs the entries left
    out, which changes nothing in what is returned. *)
Definition _filter_kwargs (kwargs_dict : gmap string V) (keys : gset string)
  : gmap string V :=
  filter (λ kv, kv.1 ∈ keys) kwargs_dict.

(** [_process_dict], which a class may override; the mixin's own returns
    its argument. *)
Variable _process_dict : gmap string V → gmap string V.

(** What [setattr(self, key, value)] stores: the class, built by [define]
    outside these sources, may convert or validate a value assigned to a
    field; [None] stands for an exception raised there.  A plain
    attribute stores the value as given. *)
Variable on_setattr : string → V → option V.

(** [from_dict] on a dict, up to the call of the class: the keyword
    arguments it passes. *)
Definition from_dict (cls : string) (data : gmap string V) (st : class_attrs)
  : gmap string V * class_attrs :=
  let data := _process_dict data in
  let '(init_keys, st) := _get_init_keys cls st in
  (_filter_kwargs data init_keys, st).

(** The loop of [update_from_dict]: one [setattr] per entry; [None] when
    one of them raises. *)
Definition setattr_all (self m : gmap string V) : option (gmap string V) :=
  map_fold (λ key value acc,
              self ← acc; stored ← on_setattr key value;
              Some (<[key := stored]> self))
    (Some self) m.

(** [update_from_dict] on the attributes of [self], an instance of
    [cls]. *)
Definition update_from_dict (cls : string) (self : gmap string V)
    (data : gmap string V) (st : class_attrs)
  : option (gmap string V) * class_attrs :=
  let data := _process_dict data in
  let '(keys, st) := _get_keys cls st in
  (setattr_all self (_filter_kwargs data keys), st).

End mixin.

End Serialization.

(** The two emoji classes of [dis_snek/models/discord/emoji.py] with the
    fields declared there, and the classes that follow each in its method
    resolution order; and the state in which no class holds [_keys] or
    [_init_keys] yet. *)
Definition emoji_fields (cls : string) : list Serialization.attrs_field :=
  let partial := [ Serialization.mkField "id" true;
                   Serialization.mkField "name" true;
                   Serialization.mkField "animated" true ] in
  if bool_decide (cls = "PartialEmoji") then partial
  else if bool_decide (cls = "CustomEmoji") then
    partial ++ [ Serialization.mkField "_client" true;
                 Serialization.mkField "require_colons" true;
                 Serialization.mkField "managed" true;
                 Serialization.mkField "available" true;
                 Serialization.mkField "_creator_id" true;
                 Serialization.mkField "_role_ids" true;
                 Serialization.mkField "_guild_id" true ]
  else [].

Definition emoji_bases (cls : string) : list string :=
  if bool_decide (cls = "CustomEmoji")
  then ["PartialEmoji"; "SnowflakeObject"; "DictSerializationMixin"]
  else if bool_decide (cls = "PartialEmoji")
  then ["SnowflakeObject"; "DictSerializationMixin"]
  else [].

Definition no_keys_yet : Serialization.class_attrs := Serialization.mkAttrs ∅ ∅.

(** ** [strf_delta] of [dis_snek/ext/debug_scale/utils.py] *)

Module DebugUtils.

(** A [datetime.timedelta], by the two attributes [strf_delta] reads.
    Python keeps [seconds] within a day; [days] may be negative. *)
Record timedelta : Type := mkDelta {
  days : Z;
  seconds : Z;
}.

(** ['s' if n > 1 or n == 0 else ''] *)
Definition plural (n : Z) : string :=
  if bool_decide (n > 1) || bool_decide (n = 0) then "s" else "".

(** [strf_delta(time_delta, show_seconds)]; [divmod] on integers is the
    floor division and its remainder. *)
Definition strf_delta (time_delta : timedelta) (show_seconds : bool) : string :=
  let years := days time_delta `div` 365 in
  let days := days time_delta `mod` 365 in
  let hours := seconds time_delta `div` 3600 in
  let rem := seconds time_delta `mod` 3600 in
  let minutes := rem `div` 60 in
  let seconds := rem `mod` 60 in
  let years_fmt := pretty years +:+ " year" +:+ plural years in
  let days_fmt := pretty days +:+ " day" +:+ plural days in
  let hours_fmt := pretty hours +:+ " hour" +:+ plural hours in
  let minutes_fmt := pretty minutes +:+ " minute" +:+ plural minutes in
  let seconds_fmt := pretty seconds +:+ " second" +:+ plural seconds in
  if bool_decide (years >= 1) then years_fmt +:+ " and " +:+ days_fmt
  else if bool_decide (days >= 1) then days_fmt +:+ " and " +:+ hours_fmt
  else if bool_decide (hours >= 1) then hours_fmt +:+ " and " +:+ minutes_fmt
  else if show_seconds then minutes_fmt +:+ " and " +:+ seconds_fmt
  else minutes_fmt.

(** The units a rendering can name, with their length in seconds (a year
    being 365 days here). *)
Inductive unit_of_time : Type := Year | Day | Hour | Minute | Second.

Definition unit_name (u : unit_of_time) : string :=
  match u with
  | Year => "year" | Day => "day" | Hour => "hour"
  | Minute => "minute" | Second => "second"
  end.

Definition unit_seconds (u : unit_of_time) : Z :=
  match u with
  | Year => 365 * 86400 | Day => 86400 | Hour => 3600
  | Minute => 60 | Second => 1
  end.

(** A count with its unit, the unit in the singular exactly for one. *)
Definition amount (n : Z) (u : unit_of_time) : string :=
  pretty n +:+ " " +:+ unit_name u +:+ (if bool_decide (n = 1) then "" else "s").

(** What a rendering shows: a count of a larger unit and, mostly, a count
    of the next smaller one. *)
Record shown : Type := mkShown {
  major : Z * unit_of_time;
  minor : option (Z * unit_of_time);
}.

Definition render (sh : shown) : string :=
  match minor sh with
  | Some (b, v) => amount (major sh).1 (major sh).2 +:+ " and " +:+ amount b v
  | None => amount (major sh).1 (major sh).2
  end.

(** The seconds a rendering stands for, and the length of its smallest
    unit. *)
Definition shown_seconds (sh : shown) : Z :=
  (major sh).1 * unit_seconds (major sh).2
  + match minor sh with
    | Some (b, v) => b * unit_seconds v
    | None => 0
    end.

Definition shown_grain (sh : shown) : Z :=
  match minor sh with
  | Some (_, v) => unit_seconds v
  | None => unit_seconds (major sh).2
  end.

Definition total_seconds (td : timedelta) : Z := days td * 86400 + seconds td.

(** The largest unit that fits into a number of seconds, the minute at
    least; and the unit below each. *)
Definition largest_unit (total : Z) : unit_of_time :=
  if bool_decide (unit_seconds Year ≤ total) then Year
  else if bool_decide (unit_seconds Day ≤ total) then Day
  else if bool_decide (unit_seconds Hour ≤ total) then Hour
  else Minute.

Definition next_unit (u : unit_of_time) : unit_of_time :=
  match u with
  | Year => Day
  | Day => Hour
  | Hour => Minute
  | Minute | Second => Second
  end.

(** What is to be shown of a number of seconds: the whole units of the
    largest unit that fits and, of what is left, the whole units of the
    unit below; seconds are left out when they are switched off. *)
Definition shown_of (total : Z) (show_seconds : bool) : shown :=
  let u := largest_unit total in
  let v := next_unit u in
  mkShown (total `div` unit_seconds u, u)
    match v, show_seconds with
    | Second, false => None
    | _, _ => Some ((total `mod` unit_seconds u) `div` unit_seconds v, v)
    end.

End DebugUtils.

(** ** [Role.__lt__] of [dis_snek/models/discord/role.py] *)

Module Roles.

(** A role, by the attributes the comparison reads; ids are integers. *)
Record Role : Type := mkRole {
  id : Z;
  _guild_id : Z;
  position : Z;
}.

(** The right operand of a comparison: a role, or something else. *)
Inductive operand : Type :=
  | ARole (r : Role)
  | NotARole.

Inductive lt_result : Type :=
  | LtBool (b : bool)
  | LtNotImplemented
  | LtRuntimeError.

(** [Role.__lt__] *)
Definition Role___lt__ (self : Role) (other : operand) : lt_result :=
  match other with
  | NotARole => LtNotImplemented
  | ARole other =>
      if bool_decide (_guild_id self ≠ _guild_id other) then LtRuntimeError
      else if bool_decide (id self = _guild_id self)
      then LtBool (bool_decide (id other ≠ id self))
      else if bool_decide (position self < position other) then LtBool true
      else if bool_decide (position self = position other)
      then LtBool (bool_decide (id self < id other))
      else LtBool false
  end.

(** The order by position, ties broken by id. *)
Definition placed_below (r1 r2 : Role) : Prop :=
  position r1 < position r2 ∨ position r1 = position r2 ∧ id r1 < id r2.

#[global] Instance placed_below_dec r1 r2 : Decision (placed_below r1 r2).
Proof. unfold placed_below. apply _. Defined.

(** [Role.default] *)
Definition default (self : Role) : bool :=
  bool_decide (id self = _guild_id self).

(** [Role.mention] *)
Definition mention (self : Role) : string :=
  if bool_decide (id self ≠ _guild_id self)
  then "<@&" +:+ pretty (id self) +:+ ">"
  else "@everyone".

End Roles.

(** ** Guild limits: [PREMIUM_GUILD_LIMITS] of [dis_snek/client/const.py]
    and the limit properties of [Guild] *)

Module Guilds.

(** One entry of the table: the limits of a premium tier. *)
Record limits : Type := mkLimits {
  emoji : Z;
  stickers : Z;
  bitrate : Z;
  filesize : Z;
}.

(** What the [defaultdict]'s factory returns for a tier not in it. *)
Definition default_limits : limits := mkLimits 50 0 96000 8388608.

(** The table, in insertion order, as the module creates it. *)
Definition PREMIUM_GUILD_LIMITS : list (pyval * limits) :=
  [ (PyInt 1, mkLimits 100 15 128000 8388608);
    (PyInt 2, mkLimits 150 30 256000 52428800);
    (PyInt 3, mkLimits 250 60 384000 104857600) ].

(** Keys of a dict are told apart by [==]: a [bool] is the integer it
    equals. *)
Definition key_of (v : pyval) : pyval :=
  match v with
  | PyBool b => PyInt (if b then 1 else 0)
  | _ => v
  end.

Fixpoint find (table : list (pyval * limits)) (key : pyval) : option limits :=
  match table with
  | [] => None
  | (k, l) :: table' =>
      if bool_decide (key_of k = key_of key) then Some l else find table' key
  end.

(** [table[key]] on a [defaultdict]: a missing key is entered with the
    factory's value, which is returned. *)
Definition getitem (table : list (pyval * limits)) (key : pyval)
  : limits * list (pyval * limits) :=
  match find table key with
  | Some l => (l, table)
  | None => (default_limits, table ++ [(key, default_limits)])
  end.

(** A guild, by the attributes the limits read. *)
Record Guild : Type := mkGuild {
  premium_tier : pyval;
  features : list string;
}.

(** [Guild.emoji_limit] *)
Definition emoji_limit (self : Guild) (table : list (pyval * limits))
  : Z * list (pyval * limits) :=
  let base := if bool_decide ("MORE_EMOJI" ∈ features self) then 200 else 50 in
  let '(l, table) := getitem table (premium_tier self) in
  (Z.max base (emoji l), table).

(** [Guild.sticker_limit] *)
Definition sticker_limit (self : Guild) (table : list (pyval * limits))
  : Z * list (pyval * limits) :=
  let base := if bool_decide ("MORE_STICKERS" ∈ features self) then 60 else 0 in
  let '(l, table) := getitem table (premium_tier self) in
  (Z.max base (stickers l), table).

(** [Guild.bitrate_limit] *)
Definition bitrate_limit (self : Guild) (table : list (pyval * limits))
  : Z * list (pyval * limits) :=
  let base := if bool_decide ("VIP_REGIONS" ∈ features self) then 128000 else 96000 in
  let '(l, table) := getitem table (premium_tier self) in
  (Z.max base (bitrate l), table).

(** [Guild.filesize_limit] *)
Definition filesize_limit (self : Guild) (table : list (pyval * limits))
  : Z * list (pyval * limits) :=
  let '(l, table) := getitem table (premium_tier self) in
  (filesize l, table).

(** The limits of a tier, whatever was looked up before: those of tiers
    1, 2 and 3 as entered, the factory's for anything else. *)
Definition tier_limits (key : pyval) : limits :=
  if bool_decide (key_of key = PyInt 1) then mkLimits 100 15 128000 8388608
  else if bool_decide (key_of key = PyInt 2) then mkLimits 150 30 256000 52428800
  else if bool_decide (key_of key = PyInt 3) then mkLimits 250 60 384000 104857600
  else default_limits.

(** A table that answers every key with the limits of that tier, either
    from an entry or, the key being absent, by the factory. *)
Definition sound (table : list (pyval * limits)) : Prop :=
  ∀ key, default default_limits (find table key) = tier_limits key.

End Guilds.

(** ** [PartialEmoji] of [dis_snek/models/discord/emoji.py] *)

Module Emoji.

(** Text as a list of code points: the pattern below works on
    characters, and an emoji is not an ASCII one. *)
Definition text : Type := list N.

(** The code point of an ASCII character, and the text of an ASCII
    string. *)
Definition cp (c : ascii) : N := N_of_ascii c.

Definition text_of (s : string) : text := cp <$> String.list_ascii_of_string s.

(** A partial emoji, after its converters: the id is an integer or
    [None], the name a string or [None]. *)
Record PartialEmoji : Type := mkEmoji {
  id : option Z;
  name : option text;
  animated : bool;
}.

(** [if self.id:] *)
Definition has_id (self : PartialEmoji) : bool :=
  match id self with
  | Some n => negb (n =? 0)
  | None => false
  end.

Inductive operand : Type :=
  | AnEmoji (e : PartialEmoji)
  | NotAnEmoji.

(** [PartialEmoji.__eq__] *)
Definition PartialEmoji___eq__ (self : PartialEmoji) (other : operand) : bool :=
  match other with
  | NotAnEmoji => false
  | AnEmoji other =>
      if has_id self then bool_decide (id self = id other)
      else bool_decide (name self = name other)
  end.

(** [f"{x}"] for the two attributes. *)
Definition str_name (n : option text) : text := default (text_of "None") n.

Definition str_id (i : option Z) : text :=
  match i with
  | Some n => text_of (pretty n)
  | None => text_of "None"
  end.

(** [PartialEmoji.req_format]; without an id it is the name, which may
    be [None]. *)
Definition req_format (self : PartialEmoji) : option text :=
  if has_id self
  then Some (str_name (name self) ++ [cp ":"] ++ str_id (id self))
  else name self.

(** [PartialEmoji.__str__] *)
Definition PartialEmoji___str__ (self : PartialEmoji) : option text :=
  match req_format self with
  | Some s =>
      if has_id self
      then Some ([cp "<"] ++ (if animated self then text_of "a:" else text_of ":")
                   ++ s ++ [cp ">"])
      else Some s
  | None => None
  end.

Section pattern.

(** What [\w] and [\d] match, by code point: the tables of the regular
    expression engine. *)
Variables word_char digit_char : N → bool.

(** The pattern [<? (a)? : (\w* ) : (\d* ) >?] (written here with
    spaces that are not in it), read from its end.  Each function
    matches a tail of the pattern at the head of the text and returns
    the groups captured from there on; an optional or starred part is
    tried at its longest first and given up if what follows fails. *)

(** [(\d* ) >?]: nothing after the digits can fail, so the longest run of
    digits is the group. *)
Fixpoint digits_group (s : text) : text :=
  match s with
  | c :: r => if digit_char c then c :: digits_group r else []
  | [] => []
  end.

(** [: (\d* ) >?] *)
Definition colon_digits (s : text) : option text :=
  match s with
  | c :: r => if bool_decide (c = cp ":") then Some (digits_group r) else None
  | [] => None
  end.

(** [(\w* ) : (\d* ) >?]: the groups 2 and 3. *)
Fixpoint word_group (s : text) : option (text * text) :=
  match s with
  | c :: r =>
      if word_char c then
        match word_group r with
        | Some (w, d) => Some (c :: w, d)
        | None => (λ d, ([], d)) <$> colon_digits s
        end
      else (λ d, ([], d)) <$> colon_digits s
  | [] => None
  end.

(** [: (\w* ) : (\d* ) >?] *)
Definition colon_word (s : text) : option (text * text) :=
  match s with
  | c :: r => if bool_decide (c = cp ":") then word_group r else None
  | [] => None
  end.

(** [(a)? : (\w* ) : (\d* ) >?]: the three groups, a group that took no part
    being the empty string. *)
Definition from_a (s : text) : option (list text) :=
  let without := (λ '(w, d), [[]; w; d]) <$> colon_word s in
  match s with
  | c :: r =>
      if bool_decide (c = cp "a") then
        match colon_word r with
        | Some (w, d) => Some [[cp "a"]; w; d]
        | None => without
        end
      else without
  | [] => None
  end.

(** The whole pattern at the head of the text. *)
Definition match_here (s : text) : option (list text) :=
  match s with
  | c :: r =>
      if bool_decide (c = cp "<") then
        match from_a r with
        | Some g => Some g
        | None => from_a s
        end
      else from_a s
  | [] => None
  end.

(** [emoji_regex.findall(s)], cut to its first element: the groups of
    the leftmost match. *)
Fixpoint first_match (s : text) : option (list text) :=
  match match_here s with
  | Some g => Some g
  | None =>
      match s with
      | _ :: r => first_match r
      | [] => None
      end
  end.

(** The arguments [from_str] hands to the class. *)
Record emoji_args : Type := mkArgs {
  arg_name : text;
  arg_id : option text;
  arg_animated : bool;
}.

(** [PartialEmoji.from_str], up to the call of the class: the keyword
    arguments it passes ([animated] is [False] when not passed). *)
Definition from_str (emoji_str : text) : emoji_args :=
  match first_match emoji_str with
  | Some groups =>
      if bool_decide (length groups = 3%nat)
      then mkArgs (groups !!! 1%nat) (Some (groups !!! 2%nat)) true
      else mkArgs (groups !!! 0%nat) (Some (groups !!! 1%nat)) false
  | None => mkArgs emoji_str None false
  end.

End pattern.

(** The tables on ASCII: letters, digits and the underscore are word
    characters; nothing else below 128 is. *)
Definition ascii_word (c : N) : bool :=
  ((48 <=? c) && (c <=? 57) || (65 <=? c) && (c <=? 90)
   || (97 <=? c) && (c <=? 122) || (c =? 95))%N.

Definition ascii_digit (c : N) : bool := ((48 <=? c) && (c <=? 57))%N.

End Emoji.


(** ** [Webhook] of [dis_snek/models/discord/webhooks.py]: the callers of
    the webhook requests *)

Module WebhookModel.

(** What a method of [Webhook] can raise: what the request raised, what a
    helper outside these sources raised, or one of its own exceptions. *)
Inductive raised : Type :=
  | RequestError (e : exn)
  | HelperError (which : string)
  | PyValueError
  | PyTypeError
  | PyNameError (name : string)
  | ForeignWebhookException
  | EmptyMessageException.

Inductive outcome (A : Type) : Type :=
  | Returned (a : A)
  | Raised (r : raised).
Arguments Returned {A} a.
Arguments Raised {A} r.

(** A webhook, by the attributes its methods read: [id] is an integer
    snowflake, [token] a string unless left at [MISSING]. *)
Record Webhook : Type := mkWebhook {
  id : Z;
  token : absent string;
}.

(** [if self.token]: [MISSING] is falsy ([Missing.__bool__]), a string is
    truthy unless empty. *)
Definition token_truthy (t : absent string) : bool :=
  match t with
  | MISSING => false
  | Given s => truthy (PyStr s)
  end.

(** The token as an argument of a request function.  [MISSING] is passed
    as [None]: the request functions only test its truth value, and both
    are falsy. *)
Definition token_arg (t : absent string) : pyval :=
  match t with
  | MISSING => PyNone
  | Given s => PyStr s
  end.

(** The arguments of [send], as far as [send] itself looks at them: the
    content, the truth values of the other parts of a message, the three
    switches, and all of them together as the helper
    [process_message_payload] gets them. *)
Record send_args : Type := mkSend {
  content : pyval;
  embeds_truthy : bool;
  embed_truthy : bool;
  files_truthy : bool;
  file_truthy : bool;
  stickers_truthy : bool;
  suppress_embeds : bool;
  wait : bool;
  thread : pyval;
  message_fields : pydata;
}.

(** The message has nothing in it, as [send] tests it. *)
Definition nothing_to_send (args : send_args) : bool :=
  negb (truthy (content args))
  && negb (embeds_truthy args || embed_truthy args)
  && negb (files_truthy args || file_truthy args)
  && negb (stickers_truthy args).

Section webhook.

Variable transport : list RequestCall → RequestCall → res pydata.

(** Helpers defined outside these sources: each returns a value or
    raises. *)
Variable process_message_payload : send_args → raised + pydata.
Variable to_optional_snowflake : pyval → raised + pyval.
Variable to_image_data : pydata → raised + pydata.

(** [str.lower] *)
Variable lower : string → string.

(** The result of an awaited request, as the caller sees it. *)
Definition awaited {A} (r : res pydata * world) (k : pydata → world → outcome A * world)
  : outcome A * world :=
  match r with
  | (Ok data, w) => k data w
  | (Raise e, w) => (Raised (RequestError e), w)
  end.

(** [Webhook.delete] *)
Definition delete (self : Webhook) (w : world) : outcome unit * world :=
  awaited (delete_webhook transport (PyInt (id self)) (token_arg (token self)) w)
    (λ _ w, (Returned (), w)).

(** [Webhook.send], up to the response of the request; placing the
    message in the cache is left out. *)
Definition send (self : Webhook) (args : send_args) (w : world)
  : outcome pydata * world :=
  if negb (token_truthy (token self)) then (Raised ForeignWebhookException, w)
  else if negb (truthy (content args))
          && negb (embeds_truthy args || embed_truthy args)
          && negb (files_truthy args || file_truthy args)
          && negb (stickers_truthy args)
  then (Raised EmptyMessageException, w)
  else if suppress_embeds args then (Raised (PyNameError "MessageFlags"), w)
  else
    match process_message_payload args with
    | inl r => (Raised r, w)
    | inr message_payload =>
        match to_optional_snowflake (thread args) with
        | inl r => (Raised r, w)
        | inr thread_id =>
            awaited
              (execute_webhook transport (PyInt (id self))
                 (match token self with Given s => s | MISSING => "" end)
                 message_payload (wait args) thread_id w)
              (λ message_data w, (Returned message_data, w))
        end
    end.

(** [Webhook.edit], up to the response of the request.  [name.lower] on
    [MISSING] is [None] ([Missing.__getattr__]), and calling it is a
    [TypeError]. *)
Definition edit (self : Webhook) (name : absent string) (avatar : pydata)
    (channel_id : pyval) (w : world) : outcome pydata * world :=
  match name with
  | MISSING => (Raised PyTypeError, w)
  | Given name =>
      if bool_decide (lower name = "clyde")
      then (Raised PyValueError, w)
      else
        match to_image_data avatar with
        | inl r => (Raised r, w)
        | inr avatar =>
            match to_optional_snowflake channel_id with
            | inl r => (Raised r, w)
            | inr channel_id =>
                awaited
                  (modify_webhook transport (PyInt (id self)) name avatar
                     channel_id (token_arg (token self)) w)
                  (λ data w, (Returned data, w))
            end
        end
  end.

End webhook.

End WebhookModel.

(** Stand-ins for the helpers of the webhook object, for running
    examples: the payload is the fields as given, a snowflake and an image
    are passed through, and [lower] lowers ASCII letters. *)
Definition pass_payload (args : WebhookModel.send_args)
  : WebhookModel.raised + pydata :=
  inr (WebhookModel.message_fields args).

Definition pass_snowflake (v : pyval) : WebhookModel.raised + pyval := inr v.

Definition pass_image (d : pydata) : WebhookModel.raised + pydata := inr d.

Fixpoint ascii_lower (s : string) : string :=
  match s with
  | "" => ""
  | String c r =>
      String (if in_range 65 90 c then ascii_of_N (N_of_ascii c + 32) else c)
        (ascii_lower r)
  end.

(** A message with text only, and one with nothing in it. *)
Definition text_message (suppress : bool) : WebhookModel.send_args :=
  WebhookModel.mkSend (PyStr "hello") false false false false false suppress
    false PyNone (DDict [("content", DVal (PyStr "hello"))]).

Definition empty_message : WebhookModel.send_args :=
  WebhookModel.mkSend PyNone false false false false false false false PyNone
    (DDict []).

(** * Facts *)

(** ** Route methods on a heap holding the route *)

Section route_facts.

Lemma bind_run {A B} (m : M A) (f : A → M B) w a w' :
  m w = (Ok a, w') → (m ≫= f) w = f a w'.
Proof. intros Hm. unfold mbind, M_bind. by rewrite Hm. Qed.

Lemma getattr_run {A} w l r (attr : Route → A) :
  is_route w l r → getattr l attr w = (Ok (attr r), w).
Proof. unfold is_route, getattr. by intros ->. Qed.

Lemma endpoint_run w l r :
  is_route w l r → endpoint l w = (Ok (method r +:+ " " +:+ path r), w).
Proof.
  intros Hl. unfold endpoint.
  rewrite (bind_run _ _ _ _ _ (getattr_run _ _ _ method Hl)).
  by rewrite (bind_run _ _ _ _ _ (getattr_run _ _ _ path Hl)).
Qed.

Lemma string_app_assoc (a b c : string) : (a +:+ b) +:+ c = a +:+ (b +:+ c).
Proof.
  induction a as [|x a IH]; [done |].
  change (String x ((a +:+ b) +:+ c) = String x (a +:+ (b +:+ c))).
  by rewrite IH.
Qed.

Lemma provisional_key_run w l r :
  is_route w l r → provisional_key l w = (Ok (provisional_of r), w).
Proof.
  intros Hl. unfold provisional_key, provisional_of, bucket_form.
  rewrite (bind_run _ _ _ _ _ (getattr_run _ _ _ webhook_token Hl)).
  destruct (truthy (webhook_token r)).
  - rewrite (bind_run _ _ _ _ _ (getattr_run _ _ _ webhook_id Hl)).
    rewrite (bind_run _ _ _ _ _ (getattr_run _ _ _ webhook_token Hl)).
    rewrite (bind_run _ _ _ _ _ (getattr_run _ _ _ channel_id Hl)).
    rewrite (bind_run _ _ _ _ _ (getattr_run _ _ _ guild_id Hl)).
    rewrite (bind_run _ _ _ _ _ (endpoint_run _ _ _ Hl)).
    unfold mret, M_ret. by rewrite !string_app_assoc.
  - rewrite (bind_run _ _ _ _ _ (getattr_run _ _ _ channel_id Hl)).
    rewrite (bind_run _ _ _ _ _ (getattr_run _ _ _ guild_id Hl)).
    by rewrite (bind_run _ _ _ _ _ (endpoint_run _ _ _ Hl)).
Qed.

Lemma rl_bucket_run w l r :
  is_route w l r → rl_bucket l w = (Ok (effective_of r), w).
Proof.
  intros Hl. unfold rl_bucket, effective_of.
  rewrite (bind_run _ _ _ _ _ (getattr_run _ _ _ known_bucket Hl)).
  destruct (known_bucket r) as [b|]; simpl.
  - case_bool_decide; simpl; [by apply provisional_key_run | done].
  - by apply provisional_key_run.
Qed.

Lemma Route_new_run m p ps w :
  ∃ l, Route_new m p ps w
       = (Ok l, mkWorld (<[l := ORoute (mkRoute p m ps (dict_get ps "channel_id")
                            (dict_get ps "guild_id") (dict_get ps "webhook_id")
                            (dict_get ps "webhook_token") None)]> (heap w)) (sent w))
       ∧ heap w !! l = None.
Proof.
  eexists. split; [reflexivity |].
  apply not_elem_of_dom, is_fresh.
Qed.

Lemma rl_bucket_eq_provisional w l r :
  is_route w l r →
  known_bucket r = None ∨ known_bucket r = Some "" →
  rl_bucket l w = provisional_key l w.
Proof.
  intros Hl Hkb. rewrite (rl_bucket_run _ _ _ Hl), (provisional_key_run _ _ _ Hl).
  unfold effective_of. by destruct Hkb as [-> | ->].
Qed.

End route_facts.

(** ** Read-only computations compose *)

Section read_only_facts.

Lemma read_only_ret {A} (a : A) : read_only (mret a).
Proof. by intros w. Qed.

Lemma read_only_raise {A} e : read_only (raise (A:=A) e).
Proof. by intros w. Qed.

Lemma read_only_bind {A B} (m : M A) (f : A → M B) :
  read_only m → (∀ a, read_only (f a)) → read_only (m ≫= f).
Proof.
  intros Hm Hf w. unfold mbind, M_bind.
  specialize (Hm w). destruct (m w) as [[a | e] w']; simpl in Hm; subst w'.
  - apply Hf.
  - done.
Qed.

Lemma read_only_getattr {A} l (attr : Route → A) : read_only (getattr l attr).
Proof. intros w. unfold getattr. by repeat case_match. Qed.

Lemma read_only_isinstance l : read_only (isinstance_Route l).
Proof. intros w. unfold isinstance_Route. by repeat case_match. Qed.

Lemma read_only_lift_fmt r : read_only (lift_fmt r).
Proof. destruct r; simpl; auto using read_only_ret, read_only_raise. Qed.

End read_only_facts.

Create HintDb ro discriminated.
#[local] Hint Resolve read_only_ret read_only_raise read_only_getattr
  read_only_isinstance read_only_lift_fmt : ro.
#[local] Hint Extern 2 (read_only (_ ≫= _)) =>
  apply read_only_bind; [| intros ?] : ro.
#[local] Hint Extern 3 (read_only (if ?b then _ else _)) => destruct b : ro.
#[local] Hint Extern 3 (read_only (match ?o with Some _ => _ | None => _ end)) =>
  destruct o : ro.

Lemma read_only_endpoint l : read_only (endpoint l).
Proof. unfold endpoint. auto 10 with ro. Qed.
#[local] Hint Resolve read_only_endpoint : ro.

Lemma read_only_provisional_key l : read_only (provisional_key l).
Proof. unfold provisional_key. auto 20 with ro. Qed.
#[local] Hint Resolve read_only_provisional_key : ro.

Lemma read_only_rl_bucket l : read_only (rl_bucket l).
Proof. unfold rl_bucket. auto 10 with ro. Qed.
#[local] Hint Resolve read_only_rl_bucket : ro.



(** * The bucket key *)

(** The sample world is what [Route("GET", "/x")] leaves on an empty heap. *)
Example plain_world_built :
  Route_new "GET" "/x" ∅ w0 = (Ok 1%positive, plain_world).
Proof. by vm_compute. Qed.

(** C1 (as amended): for a route on the heap, [rl_bucket] returns the
    discovered bucket id when it is a non-empty string; otherwise the
    provisional key, in its webhook form when the webhook token is truthy
    and in its plain form otherwise, each identifier rendered by [str]
    (so a missing one reads [None]); and two routes built from the same
    method, path and parameters have equal keys. *)
Theorem rl_bucket_key w l r m p ps :
  is_route w l r →
  rl_bucket l w = (Ok (effective_of r), w)
  ∧ str PyNone = "None"
  ∧ ∃ w', built_alike m p ps w = (Ok true, w').
Proof.
  intros Hl. split; [by apply rl_bucket_run |]. split; [done |].
  unfold built_alike.
  destruct (Route_new_run m p ps w) as (l1 & H1 & Hf1).
  rewrite (bind_run _ _ _ _ _ H1).
  match type of H1 with _ = (_, ?x) => set (w1 := x) in * end.
  destruct (Route_new_run m p ps w1) as (l2 & H2 & Hf2).
  rewrite (bind_run _ _ _ _ _ H2).
  match type of H2 with _ = (_, ?x) => set (w2 := x) in * end.
  assert (l1 ≠ l2) as Hne.
  { intros ->. subst w1. simpl in Hf2. by rewrite lookup_insert_eq in Hf2. }
  assert (∃ r1, is_route w2 l1 r1 ∧ is_route w2 l2 r1) as (r1 & Hr1 & Hr2).
  { eexists. unfold is_route. subst w2 w1. simpl. split.
    - rewrite lookup_insert_ne by done. by rewrite lookup_insert_eq.
    - by rewrite lookup_insert_eq. }
  rewrite (bind_run _ _ _ _ _ (rl_bucket_run _ _ _ Hr1)).
  rewrite (bind_run _ _ _ _ _ (rl_bucket_run _ _ _ Hr2)).
  eexists. unfold mret, M_ret. by rewrite bool_decide_eq_true_2.
Qed.

Lemma rl_bucket_key_witness :
  is_route plain_world 1%positive plain_route
  ∧ rl_bucket 1%positive plain_world = (Ok "None:None:GET /x", plain_world).
Proof.
  split; [reflexivity |].
  apply (rl_bucket_key plain_world 1%positive plain_route "GET" "/x" ∅).
  reflexivity.
Defined.

(** C1, as the data model words it, fails on [Route("GET", "/x")]: the
    code renders the two missing identifiers as [None], not as empty. *)
Lemma rl_bucket_key_counterexample :
  is_route plain_world 1%positive plain_route
  ∧ rl_bucket 1%positive plain_world = (Ok "None:None:GET /x", plain_world)
  ∧ spec_bucket_key plain_route = "::GET /x"
  ∧ rl_bucket 1%positive plain_world ≠ (Ok (spec_bucket_key plain_route), plain_world).
Proof.
  split; [reflexivity |]. split; [by vm_compute |]. split; [by vm_compute |].
  by vm_compute.
Qed.

(** * Equality and hash *)

(** C2: for two routes on the heap, [r1 == r2] is [True] exactly when
    their [rl_bucket] keys are the same string; [hash(r1)] is the hash of
    [r1]'s key; so routes with equal keys have equal hashes. *)
Theorem route_eq_hash (str_hash : string → Z) w l1 l2 r1 r2 :
  is_route w l1 r1 →
  is_route w l2 r2 →
  ∃ k1 k2,
    rl_bucket l1 w = (Ok k1, w)
    ∧ rl_bucket l2 w = (Ok k2, w)
    ∧ Route___eq__ l1 l2 w = (Ok (EqBool (bool_decide (k1 = k2))), w)
    ∧ (Route___eq__ l1 l2 w = (Ok (EqBool true), w) ↔ k1 = k2)
    ∧ Route___hash__ str_hash l1 w = (Ok (str_hash k1), w)
    ∧ (k1 = k2 →
       Route___hash__ str_hash l1 w = Route___hash__ str_hash l2 w).
Proof.
  intros H1 H2. exists (effective_of r1), (effective_of r2).
  assert (Route___eq__ l1 l2 w
          = (Ok (EqBool (bool_decide (effective_of r1 = effective_of r2))), w))
    as Heq.
  { unfold Route___eq__.
    assert (isinstance_Route l2 w = (Ok true, w)) as Hi.
    { unfold isinstance_Route. by rewrite H2. }
    rewrite (bind_run _ _ _ _ _ Hi).
    rewrite (bind_run _ _ _ _ _ (rl_bucket_run _ _ _ H1)).
    by rewrite (bind_run _ _ _ _ _ (rl_bucket_run _ _ _ H2)). }
  assert (∀ l r, is_route w l r →
            Route___hash__ str_hash l w = (Ok (str_hash (effective_of r)), w))
    as Hhash.
  { intros l r Hl. unfold Route___hash__.
    by rewrite (bind_run _ _ _ _ _ (rl_bucket_run _ _ _ Hl)). }
  repeat split; auto using rl_bucket_run.
  - rewrite Heq. intros [= Hb]. by apply bool_decide_eq_true_1 in Hb.
  - intros Hk. rewrite Heq. by rewrite bool_decide_eq_true_2.
  - intros Hk. rewrite (Hhash _ _ H1), (Hhash _ _ H2). by rewrite Hk.
Qed.

Lemma route_eq_hash_witness :
  Route___eq__ 1%positive 2%positive twin_world = (Ok (EqBool true), twin_world)
  ∧ Route___hash__ length_hash 1%positive twin_world
    = Route___hash__ length_hash 2%positive twin_world.
Proof.
  destruct (route_eq_hash length_hash twin_world 1%positive 2%positive
              plain_route
              (mkRoute "/y" "PUT" ∅ PyNone PyNone PyNone PyNone
                 (Some "None:None:GET /x"))
              eq_refl eq_refl)
    as (k1 & k2 & H1 & H2 & _ & Heq & _ & Hhash).
  assert (k1 = k2) as Hk.
  { assert (Ok k1 = Ok k2 :> res string) as [= Hk]; [| exact Hk].
    transitivity (Ok (A:=string) "None:None:GET /x").
    - exact (f_equal fst (eq_sym H1)).
    - exact (f_equal fst H2). }
  split; [by apply Heq | by apply Hhash].
Defined.

(** * Truthiness in [rl_bucket] *)

(** C10: [rl_bucket] tests truth values, not presence.  A route whose
    [known_bucket] is the empty string still gets its provisional key; a
    route whose [webhook_token] is the empty string gets the plain form
    of the provisional key, though a token was passed, and that is what
    [rl_bucket] returns unless a non-empty discovered id is set. *)
Theorem rl_bucket_truthiness w l r :
  is_route w l r →
  (known_bucket r = Some "" →
     rl_bucket l w = provisional_key l w
     ∧ rl_bucket l w = (Ok (provisional_of r), w))
  ∧ (webhook_token r = PyStr "" →
     let plain := str (channel_id r) +:+ ":" +:+ str (guild_id r) +:+ ":"
                    +:+ method r +:+ " " +:+ path r in
     provisional_key l w = (Ok plain, w)
     ∧ rl_bucket l w
       = (Ok (match known_bucket r with
              | Some b => if bool_decide (b = "") then plain else b
              | None => plain
              end), w)).
Proof.
  intros Hl. split.
  - intros Hkb. split.
    + apply (rl_bucket_eq_provisional _ _ _ Hl). by right.
    + rewrite (rl_bucket_run _ _ _ Hl). unfold effective_of. by rewrite Hkb.
  - intros Htok plain.
    assert (provisional_of r = plain) as Hp.
    { unfold provisional_of. by rewrite Htok. }
    split.
    + by rewrite (provisional_key_run _ _ _ Hl), Hp.
    + rewrite (rl_bucket_run _ _ _ Hl). unfold effective_of. by rewrite Hp.
Qed.

Lemma rl_bucket_truthiness_witness :
  rl_bucket 1%positive empty_token_world
    = (Ok "None:None:POST /w", empty_token_world)
  ∧ provisional_key 1%positive empty_token_world
    = (Ok "None:None:POST /w", empty_token_world).
Proof.
  destruct (rl_bucket_truthiness empty_token_world 1%positive empty_token_route
              eq_refl) as [Hkb Htok].
  split.
  - exact (proj2 (Hkb eq_refl)).
  - exact (proj1 (Htok eq_refl)).
Defined.

(** * Discovery and the hash *)

Lemma set_known_bucket_run w l r b :
  is_route w l r →
  set_known_bucket l b w
  = (Ok (), mkWorld (<[l := ORoute (mkRoute (path r) (method r) (params r)
                          (channel_id r) (guild_id r) (webhook_id r)
                          (webhook_token r) b)]> (heap w)) (sent w)).
Proof. unfold is_route, set_known_bucket. by intros ->. Qed.

Lemma hash_run (str_hash : string → Z) w l r :
  is_route w l r →
  Route___hash__ str_hash l w = (Ok (str_hash (effective_of r)), w).
Proof.
  intros Hl. unfold Route___hash__.
  by rewrite (bind_run _ _ _ _ _ (rl_bucket_run _ _ _ Hl)).
Qed.

(** C9 (as amended): the hash of a route follows its key.  Before a
    non-empty discovered id [b] is assigned, the key is the one the route
    has then and the hash is the string hash of that key; after the
    assignment the key is [b] and the hash is the string hash of [b],
    whatever the route was. *)
Theorem hash_after_discovery (str_hash : string → Z) w l r b :
  is_route w l r →
  b ≠ "" →
  ∃ w',
    set_known_bucket l (Some b) w = (Ok (), w')
    ∧ rl_bucket l w = (Ok (effective_of r), w)
    ∧ Route___hash__ str_hash l w = (Ok (str_hash (effective_of r)), w)
    ∧ rl_bucket l w' = (Ok b, w')
    ∧ Route___hash__ str_hash l w' = (Ok (str_hash b), w').
Proof.
  intros Hl Hb. eexists. split; [by apply set_known_bucket_run |].
  match goal with |- context [Route___hash__ _ _ ?x = (Ok (str_hash b), _)] =>
    set (w' := x) end.
  assert (is_route w' l (mkRoute (path r) (method r) (params r) (channel_id r)
            (guild_id r) (webhook_id r) (webhook_token r) (Some b))) as Hl'.
  { unfold is_route. subst w'. simpl. by rewrite lookup_insert_eq. }
  assert (rl_bucket l w' = (Ok b, w')) as Hk'.
  { rewrite (rl_bucket_run _ _ _ Hl'). unfold effective_of. simpl.
    by rewrite bool_decide_eq_false_2. }
  split; [by apply rl_bucket_run |]. split; [by apply hash_run |].
  split; [done |].
  unfold Route___hash__. by rewrite (bind_run _ _ _ _ _ Hk').
Qed.

Lemma hash_after_discovery_witness :
  ∃ w',
    set_known_bucket 1%positive (Some "abc123") plain_world = (Ok (), w')
    ∧ rl_bucket 1%positive plain_world = (Ok "None:None:GET /x", plain_world)
    ∧ Route___hash__ length_hash 1%positive plain_world = (Ok 16, plain_world)
    ∧ rl_bucket 1%positive w' = (Ok "abc123", w')
    ∧ Route___hash__ length_hash 1%positive w' = (Ok 6, w').
Proof.
  apply (hash_after_discovery length_hash plain_world 1%positive plain_route
           "abc123"); [reflexivity | discriminate].
Defined.

(** No function from the numbers into a bounded range of integers tells
    all numbers apart. *)
Lemma no_injection_into_range (g : nat → Z) (lo len : Z) :
  (∀ i, lo ≤ g i < lo + len) →
  ¬ (∀ i j, g i = g j → i = j).
Proof.
  intros Hrange Hinj.
  remember (Z.to_nat len) as N eqn:HN.
  assert (NoDup (g <$> seq 0 (S N))) as Hnodup.
  { apply NoDup_fmap_2_strong; [| apply NoDup_seq].
    intros i j _ _. apply Hinj. }
  assert (g <$> seq 0 (S N) ⊆+ seqZ lo len) as Hsub.
  { apply NoDup_submseteq; [done |].
    intros x (i & -> & _)%list_elem_of_fmap. apply elem_of_seqZ, Hrange. }
  apply submseteq_length in Hsub.
  rewrite length_fmap, length_seq, length_seqZ, <- HN in Hsub. lia.
Qed.

Lemma string_app_inj_l (s a b : string) : s +:+ a = s +:+ b → a = b.
Proof.
  induction s as [|c s IH]; [done |].
  change (String c (s +:+ a) = String c (s +:+ b) → a = b).
  intros [= H]. by apply IH.
Qed.

Lemma numbered_key_inj i j : numbered_key i = numbered_key j → i = j.
Proof.
  unfold numbered_key. intros H%string_app_inj_l. by apply (inj pretty).
Qed.

(** C9, as stated, fails in two ways.  When the id assigned is the empty
    string, it differs from the provisional key, yet the key, and with
    it the hash, stays what it was, whatever the hash function.  And no
    hash function with values in a bounded range, such as the 64 bits of
    [hash], changes the hash at every assignment of a non-empty id that
    differs from the provisional key: among the routes
    [Route("GET", f"/{n}")], two have provisional keys with the same
    hash, and assigning the key of one to the other leaves its hash as it
    was. *)
Lemma hash_moves_on_discovery_counterexample :
  (¬ ∃ str_hash, hash_moves_on_discovery str_hash plain_world 1%positive "")
  ∧ (¬ ∃ str_hash : string → Z,
         (∀ s, - 2 ^ 63 ≤ str_hash s < 2 ^ 63)
         ∧ ∀ n b, b ≠ "" →
                  hash_moves_on_discovery str_hash (numbered_world n) 1%positive b).
Proof.
  split.
  - intros [str_hash H].
    pose (w2 := mkWorld {[ 1%positive :=
            ORoute (mkRoute "/x" "GET" ∅ PyNone PyNone PyNone PyNone (Some "")) ]} []).
    apply (H "None:None:GET /x" (str_hash "None:None:GET /x") plain_world w2
             (str_hash "None:None:GET /x") w2).
    + reflexivity.
    + discriminate.
    + reflexivity.
    + by vm_compute.
    + reflexivity.
    + reflexivity.
  - intros (str_hash & Hbound & H).
    apply (no_injection_into_range (λ n, str_hash (numbered_key n))
             (- 2 ^ 63) (2 ^ 64)).
    { intros i. specialize (Hbound (numbered_key i)).
      change (2 ^ 64) with (2 ^ 63 + 2 ^ 63).
      remember (2 ^ 63) as bound. lia. }
    intros i j Hij. destruct (decide (i = j)) as [| Hne]; [done |]. exfalso.
    assert (is_route (numbered_world i) 1%positive
              (bare_route "GET" ("/" +:+ pretty i))) as Hl by reflexivity.
    pose proof (set_known_bucket_run _ _ _ (Some (numbered_key j)) Hl) as Hset.
    match type of Hset with _ = (_, ?x) => set (w2 := x) in * end.
    assert (is_route w2 1%positive
              (mkRoute ("/" +:+ pretty i) "GET" ∅ PyNone PyNone PyNone PyNone
                 (Some (numbered_key j)))) as Hl2 by reflexivity.
    apply (H i (numbered_key j) ltac:(discriminate)
             (numbered_key i) (str_hash (numbered_key i)) (numbered_world i) w2
             (str_hash (numbered_key j)) w2).
    + by rewrite (provisional_key_run _ _ _ Hl).
    + intros Hk. by apply Hne, numbered_key_inj.
    + by rewrite (hash_run _ _ _ _ Hl).
    + exact Hset.
    + rewrite (hash_run _ _ _ _ Hl2). unfold effective_of. cbn [known_bucket].
      by rewrite bool_decide_eq_false_2.
    + exact Hij.
Qed.

(** * Route operations leave the route alone *)

Lemma read_only_url l : read_only (url l).
Proof. unfold url. auto 10 with ro. Qed.

Lemma read_only_eq l1 l2 : read_only (Route___eq__ l1 l2).
Proof. unfold Route___eq__. auto 10 with ro. Qed.

Lemma read_only_hash str_hash l : read_only (Route___hash__ str_hash l).
Proof. unfold Route___hash__. auto 10 with ro. Qed.

Lemma read_only_repr l : read_only (Route___repr__ l).
Proof. unfold Route___repr__. auto 10 with ro. Qed.

(** C6: [Route(...)] binds method, path, params and the four identifiers
    from its arguments and leaves [known_bucket] unset; the operations
    [rl_bucket], [endpoint], [url], [__eq__], [__hash__], [__repr__] and
    [__str__] hand the world back unchanged, whatever their arguments;
    and an assignment to [known_bucket] changes no other field. *)
Theorem route_fields_fixed (str_hash : string → Z) self other m p ps w b r :
  is_route w self r →
  (read_only (rl_bucket self)
   ∧ read_only (endpoint self)
   ∧ read_only (url self)
   ∧ read_only (Route___eq__ self other)
   ∧ read_only (Route___hash__ str_hash self)
   ∧ read_only (Route___repr__ self)
   ∧ read_only (Route___str__ self))
  ∧ (∃ l w', Route_new m p ps w = (Ok l, w')
       ∧ heap w !! l = None
       ∧ is_route w' l (mkRoute p m ps (dict_get ps "channel_id")
                          (dict_get ps "guild_id") (dict_get ps "webhook_id")
                          (dict_get ps "webhook_token") None))
  ∧ (∃ w', set_known_bucket self b w = (Ok (), w')
       ∧ sent w' = sent w
       ∧ (∀ l, l ≠ self → heap w' !! l = heap w !! l)
       ∧ is_route w' self (mkRoute (path r) (method r) (params r) (channel_id r)
                             (guild_id r) (webhook_id r) (webhook_token r) b)).
Proof.
  intros Hl. split; [| split].
  - repeat split; auto using read_only_rl_bucket, read_only_endpoint,
      read_only_url, read_only_eq, read_only_hash, read_only_repr.
  - destruct (Route_new_run m p ps w) as (l & Hnew & Hfresh).
    eexists _, _. split; [exact Hnew |]. split; [exact Hfresh |].
    unfold is_route. simpl. by rewrite lookup_insert_eq.
  - eexists. split; [by apply set_known_bucket_run |]. simpl.
    split; [done |]. split.
    + intros l' Hne. by rewrite lookup_insert_ne.
    + unfold is_route. simpl. by rewrite lookup_insert_eq.
Qed.

Lemma route_fields_fixed_witness :
  (url 1%positive plain_world).2 = plain_world
  ∧ (Route___eq__ 1%positive 1%positive plain_world).2 = plain_world
  ∧ (Route___hash__ length_hash 1%positive plain_world).2 = plain_world.
Proof.
  destruct (route_fields_fixed length_hash 1%positive 1%positive "GET" "/y" ∅
              plain_world (Some "b") plain_route eq_refl)
    as [(_ & _ & Hurl & Heq & Hhash & _) _].
  split; [apply Hurl | split; [apply Heq | apply Hhash]].
Defined.

(** * The URL of a route *)

Section format_facts.

Variable mapping : gmap string pyval.

Lemma string_app_nil_r (a : string) : a +:+ "" = a.
Proof.
  induction a as [|x a IH]; [done |].
  change (String x (a +:+ "") = String x a). by rewrite IH.
Qed.

Lemma fmt_emit_nil r : fmt_emit "" r = r.
Proof. by destruct r. Qed.

Lemma fmt_emit_emit a b r : fmt_emit a (fmt_emit b r) = fmt_emit (a +:+ b) r.
Proof. destruct r; simpl; [| done..]. by rewrite string_app_assoc. Qed.

(** Text without braces is copied through. *)
Lemma format_scan_literal text rest :
  string_forall (λ c, negb (is_brace c)) text = true →
  format_scan mapping None (text +:+ rest)
  = fmt_emit text (format_scan mapping None rest).
Proof.
  induction text as [|c text IH]; intros Hok.
  - by rewrite fmt_emit_nil.
  - simpl in Hok. apply andb_prop in Hok as [Hc Hrest].
    change (String c text +:+ rest) with (String c (text +:+ rest)).
    unfold is_brace in Hc. simpl.
    repeat case_bool_decide; simplify_eq/=.
    rewrite (IH Hrest). by rewrite fmt_emit_emit.
Qed.

(** Inside a field, the characters of a plain name are collected up to
    the closing brace. *)
Lemma format_scan_name acc name rest :
  string_forall name_char name = true →
  format_scan mapping (Some acc) (name +:+ String "}" rest)
  = fmt_field mapping (acc +:+ name) (format_scan mapping None rest).
Proof.
  revert acc. induction name as [|c name IH]; intros acc Hok.
  - by rewrite string_app_nil_r.
  - simpl in Hok. apply andb_prop in Hok as [Hc Hrest].
    change (String c name +:+ String "}" rest)
      with (String c (name +:+ String "}" rest)).
    unfold name_char, is_brace in Hc. simpl.
    repeat case_bool_decide; simplify_eq/=.
    destruct (128 <=? N_of_ascii c)%N; [done |]. simpl.
    rewrite (IH _ Hrest). by rewrite string_app_assoc.
Qed.

(** A placeholder is looked up under its name. *)
Lemma format_scan_hole name rest :
  string_forall name_char name = true →
  format_scan mapping None (segment_text (Hole name) +:+ rest)
  = fmt_field mapping name (format_scan mapping None rest).
Proof.
  intros Hok. unfold segment_text.
  change (("{" +:+ name +:+ "}") +:+ rest)
    with (String "{" ((name +:+ "}") +:+ rest)).
  rewrite string_app_assoc.
  change ("}" +:+ rest) with (String "}" rest).
  transitivity (format_scan mapping (Some "") (name +:+ String "}" rest));
    [| exact (format_scan_name "" name rest Hok)].
  destruct name as [|c name]; [done |].
  simpl in Hok. apply andb_prop in Hok as [Hc _].
  unfold name_char, is_brace in Hc.
  change (String c name +:+ String "}" rest)
    with (String c (name +:+ String "}" rest)).
  cbn [format_scan]. by repeat case_bool_decide; simplify_eq/=.
Qed.

End format_facts.

Lemma str_quote_param v :
  str (quote_param v) = match v with PyStr s => quote s | _ => str v end.
Proof. by destruct v. Qed.

(** On a well-formed template, [format_map] over the quoted parameters
    yields the substituted text. *)
Lemma format_scan_template ps t rest :
  template_ok ps t = true →
  format_scan (quote_param <$> ps) None (template_text t +:+ rest)
  = fmt_emit (substitute ps t) (format_scan (quote_param <$> ps) None rest).
Proof.
  induction t as [|g t IH]; intros Hok.
  - by rewrite fmt_emit_nil.
  - simpl in Hok. apply andb_prop in Hok as [Hg Ht].
    cbn [template_text]. rewrite string_app_assoc.
    destruct g as [text | name]; simpl in Hg.
    + cbn [segment_text substitute].
      rewrite (format_scan_literal _ _ _ Hg), (IH Ht).
      by rewrite fmt_emit_emit.
    + apply andb_prop in Hg as [Hg Hin]. apply andb_prop in Hg as [Hname Hdig].
      apply bool_decide_eq_true_1 in Hin as [v Hv].
      rewrite (format_scan_hole _ _ _ Hname), (IH Ht).
      unfold fmt_field. apply negb_true_iff in Hdig. rewrite Hdig.
      rewrite lookup_fmap, Hv. simpl.
      rewrite fmt_emit_emit, str_quote_param.
      cbn [substitute]. unfold fill. rewrite Hv. by destruct v.
Qed.

(** C5 (as amended): for a route on the heap whose path is a well-formed
    template over its keyword parameters, [url] returns the base URL
    followed by the path with every placeholder replaced by its
    parameter, string values percent-encoded; and on every route the
    world, and so the route and the request log, is left as it was. *)
Theorem url_substitutes w l r t :
  is_route w l r →
  path r = template_text t →
  template_ok (params r) t = true →
  url l w = (Ok (BASE +:+ substitute (params r) t), w)
  ∧ BASE = "https://discord.com/api/v10"
  ∧ read_only (url l).
Proof.
  intros Hl Hpath Hok. split; [| split; [done | apply read_only_url]].
  unfold url.
  rewrite (bind_run _ _ _ _ _ (getattr_run _ _ _ path Hl)).
  rewrite (bind_run _ _ _ _ _ (getattr_run _ _ _ params Hl)).
  unfold format_map. rewrite Hpath.
  rewrite format_scan_literal by done.
  rewrite <- (string_app_nil_r (template_text t)).
  rewrite (format_scan_template _ _ _ Hok). simpl.
  by rewrite string_app_nil_r.
Qed.

(** Without a parameter for a placeholder there is no URL: [format_map]
    raises [KeyError]. *)
Example url_without_parameter :
  (r ← Route_new "GET" "/users/{user_id}" ∅; url r) w0
  = (Raise (KeyError "user_id"),
     mkWorld {[ 1%positive := ORoute (bare_route "GET" "/users/{user_id}") ]} []).
Proof. by vm_compute. Qed.

Lemma url_substitutes_witness :
  url 1%positive channel_world
  = (Ok "https://discord.com/api/v10/channels/a%20b/messages/42", channel_world).
Proof.
  apply (url_substitutes channel_world 1%positive channel_route
           [Lit "/channels/"; Hole "channel_id"; Lit "/messages/"; Hole "message_id"]);
    reflexivity.
Defined.

(** C5, as stated for every route, fails on [Route("GET",
    "/users/{user_id}")]: no keyword parameter was passed for the
    placeholder, and [url] raises [KeyError] instead of returning a
    URL. *)
Lemma url_substitutes_counterexample :
  is_route unfilled_world 1%positive (bare_route "GET" "/users/{user_id}")
  ∧ url 1%positive unfilled_world = (Raise (KeyError "user_id"), unfilled_world)
  ∧ ¬ ∃ s w', url 1%positive unfilled_world = (Ok s, w').
Proof.
  split; [reflexivity |]. split; [by vm_compute |].
  intros (s & w' & H). by vm_compute in H.
Qed.

(** * The request functions *)

Section request_facts.

Variable transport : list RequestCall → RequestCall → res pydata.

(** The shape every request function has: build a route without keyword
    parameters, hand it to [request] once, return what comes back. *)
Lemma request_via_route m p d ps rs w :
  let l := fresh (dom (heap w)) in
  let c := mkCall l d ps rs in
  (Route_new m p ∅ ≫= λ route, request transport route d ps rs) w
  = (transport (sent w) c,
     mkWorld (<[l := ORoute (bare_route m p)]> (heap w)) (sent w ++ [c])).
Proof. reflexivity. Qed.

Lemma fresh_loc_unused w : heap w !! fresh (dom (heap w)) = None.
Proof. apply not_elem_of_dom, is_fresh. Qed.

Lemma dict_filter_none_lookup d k :
  dict_filter_none d !! k
  = match d !! k with
    | Some PyNone => None
    | o => o
    end.
Proof.
  unfold dict_filter_none.
  destruct (d !! k) as [v|] eqn:Hd.
  - destruct (decide (v = PyNone)) as [-> | Hv].
    + apply map_lookup_filter_None. right. intros v Hv. simpl. naive_solver.
    + transitivity (Some v); [| by destruct v].
      apply map_lookup_filter_Some. by split.
  - apply map_lookup_filter_None. by left.
Qed.

End request_facts.

(** C8: every request function makes exactly one call of [request], on a
    route it has just built from its arguments, and returns what that
    call returns: the route has the method and the path of the function
    filled with its arguments and no keyword parameter, the call carries
    the function's [data], [params] and [reason], the dispatcher is
    consulted once, and nothing else changes.  In particular
    [execute_webhook] sends a POST route to
    [/webhooks/{webhook_id}/{webhook_token}] with the payload as data and
    query parameters where [wait] is ["true"] or ["false"] after the flag
    and [thread_id] is present exactly when it is not [None]. *)
Theorem one_request_per_function
    (transport : list RequestCall → RequestCall → res pydata)
    i w wid tok body wait thread :
  (let l := fresh (dom (heap w)) in
   let r := bare_route (cs_method (shape_of i)) (cs_path (shape_of i)) in
   let c := mkCall l (cs_data (shape_of i)) (cs_params (shape_of i))
              (cs_reason (shape_of i)) in
   perform transport i w
   = (transport (sent w) c,
      mkWorld (<[l := ORoute r]> (heap w)) (sent w ++ [c]))
   ∧ heap w !! l = None
   ∧ rc_route c = l
   ∧ params r = ∅
   ∧ known_bucket r = None
   ∧ cs_method (shape_of i) ∈ ["GET"; "POST"; "PUT"; "PATCH"; "DELETE"])
  ∧ (∃ l qs,
      let c := mkCall l (Some body) (Some qs) None in
      execute_webhook transport wid tok body wait thread w
      = (transport (sent w) c,
         mkWorld (<[l := ORoute (bare_route "POST"
                     ("/webhooks/" +:+ str wid +:+ "/" +:+ tok))]> (heap w))
           (sent w ++ [c]))
      ∧ heap w !! l = None
      ∧ qs !! "wait" = Some (PyStr (if wait then "true" else "false"))
      ∧ qs !! "thread_id" = (if decide (thread = PyNone) then None else Some thread)
      ∧ dom qs ⊆ {[ "wait"; "thread_id" ]}).
Proof.
  split.
  - cbv zeta. split; [by destruct i |].
    split; [apply fresh_loc_unused |]. split; [done |]. split; [done |].
    split; [done |].
    apply list_elem_of_In. destruct i; simpl; tauto.
  - eexists _, _. split; [apply request_via_route |].
    split; [apply fresh_loc_unused |].
    split; [| split].
    + rewrite dict_filter_none_lookup. by destruct wait.
    + rewrite dict_filter_none_lookup.
      rewrite lookup_insert_ne by done. rewrite lookup_singleton_eq.
      destruct (decide (thread = PyNone)) as [-> | Hne]; [done |].
      by destruct thread.
    + intros k [v Hk]%elem_of_dom.
      rewrite dict_filter_none_lookup in Hk.
      destruct (decide (k = "wait")) as [-> | Hw]; [set_solver |].
      destruct (decide (k = "thread_id")) as [-> | Ht]; [set_solver |].
      rewrite lookup_insert_ne in Hk by done.
      by rewrite lookup_singleton_ne in Hk.
Qed.

Example group_dm_add_recipient_call :
  (perform echo_transport
     (GroupDmAddRecipient (PyInt 5) (PyInt 6) "tok" (PyStr "nick")) w0).2
  = mkWorld {[ 1%positive := ORoute (bare_route "PUT" "/channels/5/recipients/6") ]}
      [ mkCall 1%positive
          (Some (DDict [("access_token", DVal (PyStr "tok"));
                        ("nick", DVal (PyStr "nick"))])) None None ].
Proof. by vm_compute. Qed.

(** C4: a request function that takes webhook credentials puts them into
    the path text and passes no keyword parameter, so the route it sends
    has no [webhook_id], [webhook_token], [channel_id] or [guild_id], and
    its key is the plain provisional form [None:None:METHOD path]; the
    webhook shows only in the path. *)
Theorem webhook_routes_plain
    (transport : list RequestCall → RequestCall → res pydata) i w wid tok :
  webhook_credentials i = Some (wid, tok) →
  ∃ l r c suffix w',
    perform transport i w = (transport (sent w) c, w')
    ∧ sent w' = sent w ++ [c]
    ∧ rc_route c = l
    ∧ heap w !! l = None
    ∧ is_route w' l r
    ∧ params r = ∅
    ∧ webhook_id r = PyNone ∧ webhook_token r = PyNone
    ∧ channel_id r = PyNone ∧ guild_id r = PyNone
    ∧ known_bucket r = None
    ∧ path r = "/webhooks/" +:+ str wid
                 +:+ from_option (λ t, "/" +:+ t) "" tok +:+ suffix
    ∧ rl_bucket l w' = (Ok ("None:None:" +:+ method r +:+ " " +:+ path r), w').
Proof.
  intros Hcred.
  assert (∀ m p d ps rs suffix,
    p = "/webhooks/" +:+ str wid +:+ from_option (λ t, "/" +:+ t) "" tok +:+ suffix →
    ∃ l r c suffix w',
      (Route_new m p ∅ ≫= λ route, request transport route d ps rs) w
      = (transport (sent w) c, w')
      ∧ sent w' = sent w ++ [c]
      ∧ rc_route c = l
      ∧ heap w !! l = None
      ∧ is_route w' l r
      ∧ params r = ∅
      ∧ webhook_id r = PyNone ∧ webhook_token r = PyNone
      ∧ channel_id r = PyNone ∧ guild_id r = PyNone
      ∧ known_bucket r = None
      ∧ path r = "/webhooks/" +:+ str wid
                   +:+ from_option (λ t, "/" +:+ t) "" tok +:+ suffix
      ∧ rl_bucket l w' = (Ok ("None:None:" +:+ method r +:+ " " +:+ path r), w'))
    as Hshape.
  { intros m p d ps rs suffix Hp.
    eexists (fresh (dom (heap w))), (bare_route m p), _, suffix, _.
    split; [apply request_via_route |].
    assert (is_route
              (mkWorld (<[fresh (dom (heap w)) := ORoute (bare_route m p)]> (heap w))
                 (sent w ++ [mkCall (fresh (dom (heap w))) d ps rs]))
              (fresh (dom (heap w))) (bare_route m p)) as Hl.
    { unfold is_route. simpl. by rewrite lookup_insert_eq. }
    repeat split; try done.
    - apply fresh_loc_unused.
    - by rewrite (rl_bucket_run _ _ _ Hl). }
  destruct i; simplify_eq/=.
  - apply (Hshape _ _ _ _ _ ""). unfold webhook_endpoint.
    destruct (truthy _); simpl; by rewrite ?string_app_nil_r.
  - apply (Hshape _ _ _ _ _ ""). unfold webhook_endpoint.
    destruct (truthy _); simpl; by rewrite ?string_app_nil_r.
  - apply (Hshape _ _ _ _ _ ""). unfold webhook_endpoint.
    destruct (truthy _); simpl; by rewrite ?string_app_nil_r.
  - apply (Hshape _ _ _ _ _ ""). simpl. by rewrite ?string_app_nil_r.
  - by apply (Hshape _ _ _ _ _ ("/messages/" +:+ str message_id)).
  - by apply (Hshape _ _ _ _ _ ("/messages/" +:+ str message_id)).
  - by apply (Hshape _ _ _ _ _ ("/messages/" +:+ str message_id)).
Qed.

Lemma webhook_routes_plain_witness :
  ∃ l r c suffix w',
    perform echo_transport (ExecuteWebhook (PyInt 7) "tok" (DDict []) true PyNone) w0
    = (echo_transport (sent w0) c, w')
    ∧ sent w' = sent w0 ++ [c]
    ∧ rc_route c = l
    ∧ heap w0 !! l = None
    ∧ is_route w' l r
    ∧ params r = ∅
    ∧ webhook_id r = PyNone ∧ webhook_token r = PyNone
    ∧ channel_id r = PyNone ∧ guild_id r = PyNone
    ∧ known_bucket r = None
    ∧ path r = "/webhooks/" +:+ str (PyInt 7)
                 +:+ from_option (λ t, "/" +:+ t) "" (Some "tok") +:+ suffix
    ∧ rl_bucket l w' = (Ok ("None:None:" +:+ method r +:+ " " +:+ path r), w').
Proof.
  apply (webhook_routes_plain echo_transport
           (ExecuteWebhook (PyInt 7) "tok" (DDict []) true PyNone) w0
           (PyInt 7) (Some "tok")).
  reflexivity.
Defined.

(** * The dispatcher's terminal errors *)

Section dispatcher_facts.

Import Dispatcher.

Variables throttle_retries failure_retries : nat.
Variable exchange : nat → exchanged.

Lemma run_terminal fuel c :
  terminal c = true → run exchange fuel c = c.
Proof. intros Ht. destruct fuel; simpl; [done | by rewrite Ht]. Qed.

Lemma classify_rank x : rank (classify x) = O.
Proof. destruct x as [r |]; [| done]. unfold classify. by repeat case_match. Qed.

Lemma step_closer c :
  terminal c = false → (distance (step exchange c) < distance c)%nat.
Proof.
  destruct c as [ph n tl fl x]. unfold terminal, step, distance, rank. simpl.
  destruct ph; simpl; intros Ht; try done; try lia.
  - fold (rank (classify (exchange n))). rewrite classify_rank. lia.
  - destruct tl; [by rewrite bool_decide_eq_true_2 in Ht | simpl; lia].
  - destruct fl; [by rewrite bool_decide_eq_true_2 in Ht | simpl; lia].
  - destruct fl; [by rewrite bool_decide_eq_true_2 in Ht | simpl; lia].
Qed.

Lemma run_reaches_terminal fuel c :
  (distance c ≤ fuel)%nat → terminal (run exchange fuel c) = true.
Proof.
  revert c. induction fuel as [|fuel IH]; intros c Hd; simpl.
  - destruct c as [ph n tl fl x]. unfold distance, rank in Hd. simpl in Hd.
    assert (tl = O ∧ fl = O) as [-> ->] by lia.
    by destruct ph; simpl in *; try lia.
  - destruct (terminal c) eqn:Ht; [done |].
    apply IH. pose proof (step_closer c Ht). lia.
Qed.

(** The fuel [send] runs on is enough: every call ends. *)
Lemma send_ends :
  terminal (run exchange (enough_fuel throttle_retries failure_retries)
              (start throttle_retries failure_retries)) = true.
Proof. apply run_reaches_terminal. unfold distance, enough_fuel. simpl. lia. Qed.

End dispatcher_facts.

(** C7: when the response to a call has a 4xx status other than 429, the
    dispatcher performs exactly one exchange and surfaces [RemoteRejected]
    with the decoded remote error code; such a response is always classed
    as a client error, and a call in that state sends nothing more. *)
Theorem client_error_not_retried throttle_retries failure_retries exchange
    route (r : Dispatcher.response) :
  exchange O = Dispatcher.Replied r →
  400 ≤ Dispatcher.status r < 500 →
  Dispatcher.status r ≠ 429 →
  Dispatcher.send throttle_retries failure_retries exchange route
  = (Some (Dispatcher.Surfaced Dispatcher.RemoteRejected
             (Some (Dispatcher.status r)) (Some (Dispatcher.error_code r))
             (Dispatcher.error_message r) route),
     1%nat)
  ∧ Dispatcher.classify (Dispatcher.Replied r) = Dispatcher.CLIENT_ERROR
  ∧ ∀ fuel n tl fl x,
      Dispatcher.run exchange fuel
        (Dispatcher.mkCallState Dispatcher.CLIENT_ERROR n tl fl x)
      = Dispatcher.mkCallState Dispatcher.CLIENT_ERROR n tl fl x.
Proof.
  intros Hx Hs Hne.
  assert (Dispatcher.classify (Dispatcher.Replied r) = Dispatcher.CLIENT_ERROR)
    as Hc.
  { unfold Dispatcher.classify.
    repeat case_bool_decide; try done; lia. }
  split; [| split; [exact Hc | intros; by apply run_terminal]].
  unfold Dispatcher.send, Dispatcher.enough_fuel.
  cbn [Nat.add Dispatcher.run Dispatcher.start Dispatcher.terminal
       Dispatcher.step Dispatcher.goto Dispatcher.phase Dispatcher.exchanges
       Dispatcher.throttle_left Dispatcher.failure_left Dispatcher.last].
  rewrite Hx, Hc. by rewrite run_terminal.
Qed.

Lemma client_error_not_retried_witness :
  Dispatcher.send 3 2 forbidden_then_ok 1%positive
  = (Some (Dispatcher.Surfaced Dispatcher.RemoteRejected (Some 403) (Some 50013)
             "Missing Permissions" 1%positive),
     1%nat).
Proof.
  apply (client_error_not_retried 3 2 forbidden_then_ok 1%positive forbidden);
    [reflexivity | simpl; lia | discriminate].
Defined.

(** * Further facts: quoting *)

Lemma string_forall_app P a b :
  string_forall P (a +:+ b) = string_forall P a && string_forall P b.
Proof.
  induction a as [|c a IH]; [done |].
  change (String c a +:+ b) with (String c (a +:+ b)). simpl.
  by rewrite IH, andb_assoc.
Qed.

Lemma string_length_app a b :
  String.length (a +:+ b) = (String.length a + String.length b)%nat.
Proof.
  induction a as [|c a IH]; [done |].
  change (String c a +:+ b) with (String c (a +:+ b)). simpl. by rewrite IH.
Qed.

Lemma quote_byte_shape c :
  quote_byte c = String c "" ∧ quote_safe c = true
  ∨ (∃ h l, quote_byte c = String "%" (String h (String l ""))
            ∧ quote_safe h = true ∧ quote_safe l = true)
    ∧ quote_safe c = false.
Proof.
  destruct c as [[] [] [] [] [] [] [] []];
    first [ left; split; reflexivity
          | right; split; [eexists _, _; repeat split; reflexivity | reflexivity] ].
Qed.

Lemma quote_byte_inv_quote_byte c : quote_byte_inv (quote_byte c) = Some c.
Proof. by destruct c as [[] [] [] [] [] [] [] []]. Qed.

Lemma quote_byte_inj c1 c2 : quote_byte c1 = quote_byte c2 → c1 = c2.
Proof.
  intros H. apply (f_equal quote_byte_inv) in H.
  rewrite !quote_byte_inv_quote_byte in H. by injection H.
Qed.

Lemma quote_cons c s : quote (String c s) = quote_byte c +:+ quote s.
Proof. done. Qed.

Lemma quote_length s :
  (String.length s ≤ String.length (quote s) ≤ 3 * String.length s)%nat.
Proof.
  induction s as [|c s IH]; [simpl; lia |].
  rewrite quote_cons, string_length_app.
  change (String.length (String c s)) with (S (String.length s)).
  destruct IH as [IH1 IH2].
  destruct (quote_byte_shape c) as [[Hq _] | [(h & l & Hq & _) _]];
    rewrite Hq; cbn [String.length]; lia.
Qed.

(** X1: whatever the input, [quote] puts out only unreserved characters,
    the slash and the percent sign, and between one and three characters
    per input byte. *)
Theorem quote_alphabet s :
  string_forall quoted_char (quote s) = true
  ∧ (String.length s ≤ String.length (quote s) ≤ 3 * String.length s)%nat.
Proof.
  split; [| apply quote_length].
  induction s as [|c s IH]; [done |].
  rewrite quote_cons, string_forall_app, IH, andb_true_r.
  unfold quoted_char.
  destruct (quote_byte_shape c) as [[-> Hc] | [(h & l & -> & Hh & Hl) _]]; simpl.
  - by rewrite Hc.
  - by rewrite Hh, Hl.
Qed.

(** X2: [quote] loses nothing: two strings with the same quoted form are
    the same string. *)
Theorem quote_inj s1 s2 : quote s1 = quote s2 → s1 = s2.
Proof.
  revert s2. induction s1 as [|c1 s1 IH]; intros [|c2 s2] H.
  - done.
  - exfalso. rewrite quote_cons in H.
    destruct (quote_byte_shape c2) as [[Hq _] | [(h & l & Hq & _) _]];
      rewrite Hq in H; discriminate.
  - exfalso. rewrite quote_cons in H.
    destruct (quote_byte_shape c1) as [[Hq _] | [(h & l & Hq & _) _]];
      rewrite Hq in H; discriminate.
  - rewrite !quote_cons in H.
    destruct (quote_byte_shape c1) as [[Hq1 Hs1] | [(h1 & l1 & Hq1 & _) Hs1]];
      destruct (quote_byte_shape c2) as [[Hq2 Hs2] | [(h2 & l2 & Hq2 & _) Hs2]];
      rewrite Hq1, Hq2 in H.
    + injection H as -> H. f_equal. by apply IH.
    + injection H as -> H. done.
    + injection H as <- H. done.
    + injection H as -> -> H.
      assert (c1 = c2) as -> by (apply quote_byte_inj; congruence).
      f_equal. by apply IH.
Qed.

Lemma quote_inj_witness : "a b" = "a b".
Proof. apply (quote_inj "a b" "a b"). reflexivity. Defined.

(** X3: [quote] leaves a string alone exactly when all its characters are
    safe; any other string gets longer. *)
Theorem quote_fixes_safe s :
  quote s = s ↔ string_forall quote_safe s = true.
Proof.
  split.
  - intros H. induction s as [|c s IH]; [done |].
    rewrite quote_cons in H.
    destruct (quote_byte_shape c) as [[Hq Hc] | [(h & l & Hq & _) Hc]];
      rewrite Hq in H.
    + injection H as H. simpl. by rewrite Hc, (IH H).
    + exfalso. apply (f_equal String.length) in H.
      rewrite string_length_app in H. cbn [String.length] in H.
      pose proof (quote_length s). lia.
  - intros H. induction s as [|c s IH]; [done |].
    simpl in H. apply andb_prop in H as [Hc Hs].
    rewrite quote_cons, (IH Hs). unfold quote_byte. by rewrite Hc.
Qed.

(** * Further facts: the URL of a route *)

(** X4: when the path of a route holds no brace, [url] is the base URL
    followed by the path as it stands: what a request function has put
    into the path is not percent-encoded. *)
Theorem url_of_plain_path w l r :
  is_route w l r →
  brace_free (path r) = true →
  url l w = (Ok (BASE +:+ path r), w).
Proof.
  intros Hl Hp. unfold url.
  rewrite (bind_run _ _ _ _ _ (getattr_run _ _ _ path Hl)).
  rewrite (bind_run _ _ _ _ _ (getattr_run _ _ _ params Hl)).
  unfold format_map.
  rewrite format_scan_literal by done.
  rewrite <- (string_app_nil_r (path r)) at 1.
  rewrite (format_scan_literal _ _ _ Hp). simpl.
  by rewrite string_app_nil_r.
Qed.

Lemma url_of_plain_path_witness :
  url 1%positive spaced_world
  = (Ok "https://discord.com/api/v10/users/a b", spaced_world).
Proof.
  apply (url_of_plain_path spaced_world 1%positive
           (bare_route "GET" "/users/a b")); reflexivity.
Defined.

(** X5: when the path is well formed up to a placeholder for which no
    keyword parameter was passed, [url] raises [KeyError] with the name of
    that placeholder, whatever follows it, and changes nothing. *)
Theorem url_missing_parameter w l r t name rest :
  is_route w l r →
  path r = template_text t +:+ segment_text (Hole name) +:+ rest →
  template_ok (params r) t = true →
  string_forall name_char name = true →
  all_digits name = false →
  params r !! name = None →
  url l w = (Raise (KeyError name), w).
Proof.
  intros Hl Hpath Hok Hname Hdig Hmiss. unfold url.
  rewrite (bind_run _ _ _ _ _ (getattr_run _ _ _ path Hl)).
  rewrite (bind_run _ _ _ _ _ (getattr_run _ _ _ params Hl)).
  unfold format_map. rewrite Hpath.
  rewrite format_scan_literal by done.
  rewrite (format_scan_template _ _ _ Hok).
  rewrite (format_scan_hole _ _ _ Hname).
  unfold fmt_field. rewrite Hdig, lookup_fmap, Hmiss. done.
Qed.

Lemma url_missing_parameter_witness :
  url 1%positive half_filled_world
  = (Raise (KeyError "message_id"), half_filled_world).
Proof.
  apply (url_missing_parameter half_filled_world 1%positive half_filled_route
           [Lit "/channels/"; Hole "channel_id"; Lit "/messages/"]
           "message_id" "/crosspost"); reflexivity.
Defined.

(** X6: when the path is well formed up to a closing brace that is not
    doubled, or up to a placeholder without a name or with a number for a
    name, [url] raises [ValueError] and changes nothing. *)
Theorem url_malformed_path w l r t name rest :
  is_route w l r →
  template_ok (params r) t = true →
  (path r = template_text t +:+ "}" +:+ rest
     ∧ (∀ rest', rest ≠ String "}" rest')
   ∨ path r = template_text t +:+ segment_text (Hole name) +:+ rest
     ∧ string_forall name_char name = true ∧ all_digits name = true) →
  url l w = (Raise ValueError, w).
Proof.
  intros Hl Hok Hpath. unfold url.
  rewrite (bind_run _ _ _ _ _ (getattr_run _ _ _ path Hl)).
  rewrite (bind_run _ _ _ _ _ (getattr_run _ _ _ params Hl)).
  unfold format_map.
  destruct Hpath as [[-> Hrest] | (-> & Hname & Hdig)];
    rewrite format_scan_literal by done;
    rewrite (format_scan_template _ _ _ Hok).
  - change ("}" +:+ rest) with (String "}" rest).
    destruct rest as [|c rest]; [done |]. cbn [format_scan].
    rewrite bool_decide_eq_false_2 by done.
    rewrite bool_decide_eq_true_2 by done.
    rewrite bool_decide_eq_false_2; [done |].
    intros ->. by apply (Hrest rest).
  - rewrite (format_scan_hole _ _ _ Hname). unfold fmt_field. by rewrite Hdig.
Qed.

Lemma url_malformed_path_witness :
  url 1%positive brace_world = (Raise ValueError, brace_world).
Proof.
  apply (url_malformed_path brace_world 1%positive
           (bare_route "GET" "/webhooks/7/to}ken") [Lit "/webhooks/7/to"] ""
           "ken"); [reflexivity | reflexivity |].
  left. split; [reflexivity | discriminate].
Defined.

(** * Further facts: discovery and keys *)

(** X7: once the same non-empty discovered id is assigned to two routes,
    they compare equal and hash alike, whatever their methods, paths and
    identifiers. *)
Theorem discovery_merges (str_hash : string → Z) w l1 l2 r1 r2 b :
  is_route w l1 r1 →
  is_route w l2 r2 →
  b ≠ "" →
  ∃ w',
    (set_known_bucket l1 (Some b) ≫= λ _, set_known_bucket l2 (Some b)) w
    = (Ok (), w')
    ∧ Route___eq__ l1 l2 w' = (Ok (EqBool true), w')
    ∧ Route___hash__ str_hash l1 w' = (Ok (str_hash b), w')
    ∧ Route___hash__ str_hash l2 w' = (Ok (str_hash b), w').
Proof.
  intros H1 H2 Hb.
  pose proof (set_known_bucket_run w l1 r1 (Some b) H1) as Hs1.
  match type of Hs1 with _ = (_, ?x) => set (w1 := x) in * end.
  assert (∃ r2', is_route w1 l2 r2') as [r2' H2'].
  { unfold is_route. subst w1. simpl.
    destruct (decide (l1 = l2)) as [-> | Hne].
    - rewrite lookup_insert_eq. eauto.
    - rewrite lookup_insert_ne by done. eauto. }
  pose proof (set_known_bucket_run w1 l2 r2' (Some b) H2') as Hs2.
  match type of Hs2 with _ = (_, ?x) => set (w2 := x) in * end.
  exists w2. split; [by rewrite (bind_run _ _ _ _ _ Hs1) |].
  assert (∀ l r, is_route w2 l r → known_bucket r = Some b →
            rl_bucket l w2 = (Ok b, w2)) as Hkey.
  { intros l r Hl Hkb. rewrite (rl_bucket_run _ _ _ Hl).
    unfold effective_of. rewrite Hkb. by rewrite bool_decide_eq_false_2. }
  assert (∃ r, is_route w2 l1 r ∧ known_bucket r = Some b) as (q1 & Hq1 & Hk1).
  { unfold is_route. subst w2. simpl.
    destruct (decide (l2 = l1)) as [-> | Hne].
    - rewrite lookup_insert_eq. eauto.
    - rewrite lookup_insert_ne by done. subst w1. simpl.
      rewrite lookup_insert_eq. eauto. }
  assert (∃ r, is_route w2 l2 r ∧ known_bucket r = Some b) as (q2 & Hq2 & Hk2).
  { unfold is_route. subst w2. simpl. rewrite lookup_insert_eq. eauto. }
  pose proof (Hkey _ _ Hq1 Hk1) as Hb1. pose proof (Hkey _ _ Hq2 Hk2) as Hb2.
  repeat split.
  - unfold Route___eq__.
    assert (isinstance_Route l2 w2 = (Ok true, w2)) as Hi.
    { unfold isinstance_Route. by rewrite Hq2. }
    rewrite (bind_run _ _ _ _ _ Hi), (bind_run _ _ _ _ _ Hb1),
      (bind_run _ _ _ _ _ Hb2).
    unfold mret, M_ret. by rewrite bool_decide_eq_true_2.
  - unfold Route___hash__. by rewrite (bind_run _ _ _ _ _ Hb1).
  - unfold Route___hash__. by rewrite (bind_run _ _ _ _ _ Hb2).
Qed.

Lemma discovery_merges_witness :
  ∃ w',
    (set_known_bucket 1%positive (Some "abc") ≫=
       λ _, set_known_bucket 2%positive (Some "abc")) twin_world
    = (Ok (), w')
    ∧ Route___eq__ 1%positive 2%positive w' = (Ok (EqBool true), w')
    ∧ Route___hash__ length_hash 1%positive w' = (Ok (length_hash "abc"), w')
    ∧ Route___hash__ length_hash 2%positive w' = (Ok (length_hash "abc"), w').
Proof.
  apply (discovery_merges length_hash twin_world 1%positive 2%positive
           plain_route
           (mkRoute "/y" "PUT" ∅ PyNone PyNone PyNone PyNone
              (Some "None:None:GET /x")) "abc");
    [reflexivity | reflexivity | discriminate].
Defined.

(** X8: assigning a discovered id to one route leaves every other route
    on the heap with the key, the hash and the URL it had. *)
Theorem discovery_is_local (str_hash : string → Z) w w' l1 l2 r2 b :
  is_route w l2 r2 →
  l1 ≠ l2 →
  set_known_bucket l1 b w = (Ok (), w') →
  is_route w' l2 r2
  ∧ (rl_bucket l2 w').1 = (rl_bucket l2 w).1
  ∧ (Route___hash__ str_hash l2 w').1 = (Route___hash__ str_hash l2 w).1
  ∧ (url l2 w').1 = (url l2 w).1.
Proof.
  intros H2 Hne Hset.
  assert (is_route w' l2 r2) as H2'.
  { unfold set_known_bucket in Hset.
    destruct (heap w !! l1) as [[r1 |] |] eqn:H1; simplify_eq.
    unfold is_route. simpl. by rewrite lookup_insert_ne. }
  split; [done |]. split; [| split].
  - by rewrite (rl_bucket_run _ _ _ H2'), (rl_bucket_run _ _ _ H2).
  - unfold Route___hash__.
    by rewrite (bind_run _ _ _ _ _ (rl_bucket_run _ _ _ H2')),
      (bind_run _ _ _ _ _ (rl_bucket_run _ _ _ H2)).
  - unfold url.
    rewrite (bind_run _ _ _ _ _ (getattr_run _ _ _ path H2')),
      (bind_run _ _ _ _ _ (getattr_run _ _ _ path H2)).
    rewrite (bind_run _ _ _ _ _ (getattr_run _ _ _ params H2')),
      (bind_run _ _ _ _ _ (getattr_run _ _ _ params H2)).
    by destruct (format_map _ _).
Qed.

Lemma discovery_is_local_witness :
  (rl_bucket 1%positive (set_known_bucket 2%positive (Some "abc") twin_world).2).1
  = (rl_bucket 1%positive twin_world).1.
Proof.
  apply (discovery_is_local length_hash twin_world
           (set_known_bucket 2%positive (Some "abc") twin_world).2
           2%positive 1%positive plain_route (Some "abc"));
    [reflexivity | discriminate | reflexivity].
Defined.

Lemma split_at_first x a1 a2 b1 b2 :
  free_of x a1 = true →
  free_of x a2 = true →
  a1 +:+ String x b1 = a2 +:+ String x b2 →
  a1 = a2 ∧ b1 = b2.
Proof.
  revert a2. induction a1 as [|c a1 IH]; intros [|c2 a2] H1 H2 H.
  - by injection H.
  - exfalso. injection H as -> _. unfold free_of in H2.
    cbn [string_forall] in H2. by rewrite bool_decide_eq_true_2 in H2.
  - exfalso. injection H as -> _. unfold free_of in H1.
    cbn [string_forall] in H1. by rewrite bool_decide_eq_true_2 in H1.
  - unfold free_of in H1, H2. cbn [string_forall] in H1, H2.
    apply andb_prop in H1 as [_ H1]. apply andb_prop in H2 as [_ H2].
    injection H as -> H. destruct (IH _ H1 H2 H) as [-> ->]. done.
Qed.

(** X9: the plain provisional key is unambiguous.  For two routes without
    a truthy webhook token, whose rendered channel and guild ids hold no
    colon and whose methods hold no space, equal provisional keys mean
    equal rendered ids, equal methods and equal paths. *)
Theorem plain_key_unambiguous r1 r2 :
  truthy (webhook_token r1) = false →
  truthy (webhook_token r2) = false →
  free_of ":" (str (channel_id r1)) = true →
  free_of ":" (str (channel_id r2)) = true →
  free_of ":" (str (guild_id r1)) = true →
  free_of ":" (str (guild_id r2)) = true →
  free_of " " (method r1) = true →
  free_of " " (method r2) = true →
  provisional_of r1 = provisional_of r2 →
  str (channel_id r1) = str (channel_id r2)
  ∧ str (guild_id r1) = str (guild_id r2)
  ∧ method r1 = method r2
  ∧ path r1 = path r2.
Proof.
  intros Ht1 Ht2 Hc1 Hc2 Hg1 Hg2 Hm1 Hm2 H.
  unfold provisional_of, bucket_form in H. rewrite Ht1, Ht2 in H.
  change ("" +:+ ?x) with x in H.
  change (":" +:+ ?x) with (String ":" x) in H.
  change (" " +:+ ?x) with (String " " x) in H.
  destruct (split_at_first _ _ _ _ _ Hc1 Hc2 H) as [Hc H'].
  destruct (split_at_first _ _ _ _ _ Hg1 Hg2 H') as [Hg H''].
  destruct (split_at_first _ _ _ _ _ Hm1 Hm2 H'') as [Hm Hp].
  done.
Qed.

Lemma plain_key_unambiguous_witness :
  str (channel_id plain_route) = str (channel_id plain_route)
  ∧ str (guild_id plain_route) = str (guild_id plain_route)
  ∧ method plain_route = method plain_route
  ∧ path plain_route = path plain_route.
Proof.
  apply (plain_key_unambiguous plain_route plain_route); reflexivity.
Defined.

(** * Further facts: the serialization mixin *)

Section serialization_facts.

Import Serialization.

Variable fields_of : string → list attrs_field.
Variable bases : string → list string.

Context {V : Type}.

Lemma filter_kwargs_Some (d : gmap string V) (keys : gset string) k v :
  _filter_kwargs d keys !! k = Some v ↔ d !! k = Some v ∧ k ∈ keys.
Proof. unfold _filter_kwargs. by rewrite map_lookup_filter_Some. Qed.

(** X10: [_filter_kwargs] keeps an entry exactly when its key is among
    the keys given, with its value; so the result is part of the input,
    its keys are among [keys], and filtering it again changes nothing. *)
Theorem filter_kwargs_lookup (d : gmap string V) (keys : gset string) k :
  _filter_kwargs d keys !! k = (if decide (k ∈ keys) then d !! k else None)
  ∧ _filter_kwargs d keys ⊆ d
  ∧ dom (_filter_kwargs d keys) ⊆ keys ∩ dom d
  ∧ _filter_kwargs (_filter_kwargs d keys) keys = _filter_kwargs d keys.
Proof.
  split; [| split; [| split]].
  - apply option_eq. intros v. rewrite filter_kwargs_Some.
    destruct (decide (k ∈ keys)); [tauto |]. split; [tauto | done].
  - apply map_filter_subseteq.
  - intros i [v Hi]%elem_of_dom. apply filter_kwargs_Some in Hi as [Hd Hk].
    apply elem_of_intersection. split; [done |]. apply elem_of_dom. eauto.
  - apply map_eq. intros i. apply option_eq. intros v.
    rewrite !filter_kwargs_Some. tauto.
Qed.

(** X11: filtering by one key set and then by another is filtering by
    their intersection, in either order. *)
Theorem filter_kwargs_twice (d : gmap string V) (keys1 keys2 : gset string) :
  _filter_kwargs (_filter_kwargs d keys1) keys2 = _filter_kwargs d (keys1 ∩ keys2)
  ∧ _filter_kwargs (_filter_kwargs d keys1) keys2
    = _filter_kwargs (_filter_kwargs d keys2) keys1.
Proof.
  split; apply map_eq; intros i; apply option_eq; intros v;
    rewrite !filter_kwargs_Some, ?elem_of_intersection; tauto.
Qed.

Lemma first_set_None held classes :
  first_set held classes = None ↔ ∀ c, c ∈ classes → held !! c = None.
Proof.
  induction classes as [|c rest IH]; simpl.
  - split; [| done]. intros _ c Hc. by apply elem_of_nil in Hc.
  - destruct (held !! c) as [keys|] eqn:Hc.
    + split; [done |]. intros H. specialize (H c (list_elem_of_here _ _)).
      congruence.
    + rewrite IH. split.
      * intros H c' [-> | Hin]%elem_of_cons; [done | by apply H].
      * intros H c' Hin. apply H. by right.
Qed.

Lemma first_set_insert held classes parent keys :
  parent ∈ classes →
  first_set held classes = None →
  first_set (<[parent := keys]> held) classes = Some keys.
Proof.
  induction classes as [|c rest IH]; intros Hin Hnone.
  - by apply elem_of_nil in Hin.
  - simpl in *. destruct (held !! c) eqn:Hc; [done |].
    destruct (decide (c = parent)) as [-> | Hne].
    + by rewrite lookup_insert_eq.
    + rewrite lookup_insert_ne by done. rewrite Hc.
      apply IH; [| done]. by apply elem_of_cons in Hin as [-> | Hin].
Qed.

Lemma get_keys_cold cls st :
  class_getattr bases (_keys st) cls = None →
  _get_keys fields_of bases cls st
  = (field_names (fields_of cls),
     mkAttrs (<[cls := field_names (fields_of cls)]> (_keys st)) (_init_keys st)).
Proof. intros H. unfold _get_keys. by rewrite H. Qed.

Lemma get_init_keys_cold cls st :
  class_getattr bases (_init_keys st) cls = None →
  _get_init_keys fields_of bases cls st
  = (init_names (fields_of cls),
     mkAttrs (_keys st) (<[cls := init_names (fields_of cls)]> (_init_keys st))).
Proof. intros H. unfold _get_init_keys. by rewrite H. Qed.


(** After a class above [cls] was asked on a state where nothing was
    held, [cls] is answered with that class's set. *)
Lemma class_getattr_parent held cls parent keys :
  parent ∈ bases cls →
  cls ≠ parent →
  class_getattr bases held cls = None →
  class_getattr bases (<[parent := keys]> held) cls = Some keys.
Proof.
  intros Hin Hne Hnone. unfold class_getattr in *.
  apply first_set_insert; [by right | done].
Qed.

Lemma class_getattr_above held cls parent :
  parent ∈ bases cls →
  (∀ c, c ∈ bases parent → c ∈ bases cls) →
  class_getattr bases held cls = None →
  class_getattr bases held parent = None.
Proof.
  unfold class_getattr. rewrite !first_set_None. intros Hin Hsub H c Hc.
  apply H. right. apply elem_of_cons in Hc as [-> | Hc]; [done | by apply Hsub].
Qed.

Variable _process_dict : gmap string V → gmap string V.
Variable on_setattr : string → V → option V.

Lemma setattr_all_Some (self m self' : gmap string V) :
  setattr_all on_setattr self m = Some self' →
  ∀ k, self' !! k = match m !! k with
                    | Some v => on_setattr k v
                    | None => self !! k
                    end.
Proof.
  unfold setattr_all. revert self'.
  induction m as [|i x m Hi Hfold IH] using map_first_key_ind; intros self' H k.
  - rewrite map_fold_empty in H. injection H as <-. by rewrite lookup_empty.
  - rewrite map_fold_insert_first_key in H by done.
    destruct (map_fold _ _ m) as [acc|]; [| done]. simpl in H.
    destruct (on_setattr i x) as [stored|] eqn:Hset; [| done].
    injection H as <-.
    destruct (decide (i = k)) as [-> | Hne].
    + by rewrite !lookup_insert_eq.
    + rewrite !lookup_insert_ne by done. by apply IH.
Qed.


Lemma update_from_dict_run cls (self data : gmap string V) st :
  update_from_dict fields_of bases _process_dict on_setattr cls self data st
  = (setattr_all on_setattr self
       (_filter_kwargs (_process_dict data) (_get_keys fields_of bases cls st).1),
     (_get_keys fields_of bases cls st).2).
Proof. unfold update_from_dict. by destruct (_get_keys _ _ cls st). Qed.

Lemma from_dict_run cls (data : gmap string V) st :
  from_dict fields_of bases _process_dict cls data st
  = (_filter_kwargs (_process_dict data) (_get_init_keys fields_of bases cls st).1,
     (_get_init_keys fields_of bases cls st).2).
Proof. unfold from_dict. by destruct (_get_init_keys _ _ cls st). Qed.



(** X29: the sets are shared down the class hierarchy.  Once a class
    above [cls] in its method resolution order has been asked for its
    keys, on a state where none were held, [cls] is answered with the
    sets of that class, not with the names of its own fields: [from_dict]
    then passes no entry of the data outside the parent's set, and
    [update_from_dict] sets no attribute outside it, though asked first
    [cls] is answered with its own names. *)
Theorem subclass_uses_parent_keys cls parent (self data : gmap string V) st k :
  parent ∈ bases cls →
  cls ≠ parent →
  (∀ c, c ∈ bases parent → c ∈ bases cls) →
  class_getattr bases (_init_keys st) cls = None →
  class_getattr bases (_keys st) cls = None →
  let st1 := (_get_init_keys fields_of bases parent st).2 in
  let st2 := (_get_keys fields_of bases parent st).2 in
  ((_get_init_keys fields_of bases cls st).1 = init_names (fields_of cls)
   ∧ (_get_keys fields_of bases cls st).1 = field_names (fields_of cls))
  ∧ ((_get_init_keys fields_of bases cls st1).1 = init_names (fields_of parent)
     ∧ (_get_keys fields_of bases cls st2).1 = field_names (fields_of parent))
  ∧ (k ∈ init_names (fields_of cls) →
     (from_dict fields_of bases _process_dict cls data st).1 !! k
     = _process_dict data !! k)
  ∧ (k ∉ init_names (fields_of parent) →
     (from_dict fields_of bases _process_dict cls data st1).1 !! k = None)
  ∧ (k ∉ field_names (fields_of parent) →
     ∀ self',
       (update_from_dict fields_of bases _process_dict on_setattr
          cls self data st2).1 = Some self' →
       self' !! k = self !! k).
Proof.
  intros Hin Hne Hsub Hinit Hkeys st1 st2.
  pose proof (class_getattr_above _ _ _ Hin Hsub Hinit) as Hpinit.
  pose proof (class_getattr_above _ _ _ Hin Hsub Hkeys) as Hpkeys.
  assert ((_get_init_keys fields_of bases cls st1).1 = init_names (fields_of parent))
    as H1.
  { subst st1. rewrite (get_init_keys_cold _ _ Hpinit). cbn [snd].
    unfold _get_init_keys. cbn [_init_keys].
    by rewrite (class_getattr_parent _ _ _ _ Hin Hne Hinit). }
  assert ((_get_keys fields_of bases cls st2).1 = field_names (fields_of parent))
    as H2.
  { subst st2. rewrite (get_keys_cold _ _ Hpkeys). cbn [snd].
    unfold _get_keys. cbn [_keys].
    by rewrite (class_getattr_parent _ _ _ _ Hin Hne Hkeys). }
  split; [by rewrite (get_init_keys_cold _ _ Hinit), (get_keys_cold _ _ Hkeys) |].
  split; [done |]. split; [| split].
  - intros Hk. rewrite from_dict_run, (get_init_keys_cold _ _ Hinit). cbn [fst].
    rewrite (proj1 (filter_kwargs_lookup _ _ k)). by rewrite decide_True.
  - intros Hk. rewrite from_dict_run, H1. cbn [fst].
    rewrite (proj1 (filter_kwargs_lookup _ _ k)). by rewrite decide_False.
  - intros Hk self' H. rewrite update_from_dict_run, H2 in H. cbn [fst] in H.
    rewrite (setattr_all_Some _ _ _ H k).
    rewrite (proj1 (filter_kwargs_lookup _ _ k)). by rewrite decide_False.
Qed.

End serialization_facts.


Example update_from_dict_custom_emoji :
  (Serialization.update_from_dict emoji_fields emoji_bases id (λ _ v, Some v)
     "CustomEmoji" ({[ "name" := 1; "managed" := 0 ]} : gmap string Z)
     {[ "name" := 2; "managed" := 1; "guild_id" := 5 ]} no_keys_yet).1
  = Some {[ "name" := 2; "managed" := 1 ]}.
Proof. by vm_compute. Qed.



Lemma subclass_uses_parent_keys_witness :
  (Serialization.from_dict emoji_fields emoji_bases id "CustomEmoji"
     ({[ "name" := 2; "managed" := 1 ]} : gmap string Z)
     (Serialization._get_init_keys emoji_fields emoji_bases "PartialEmoji"
        no_keys_yet).2).1 !! "managed" = None.
Proof.
  pose proof (subclass_uses_parent_keys emoji_fields emoji_bases id (λ _ v, Some v)
                "CustomEmoji" "PartialEmoji" ∅
                ({[ "name" := 2; "managed" := 1 ]} : gmap string Z)
                no_keys_yet "managed") as H.
  cbv zeta in H. destruct H as (_ & _ & _ & Hdrop & _).
  - apply list_elem_of_In. vm_compute. tauto.
  - discriminate.
  - intros c Hc. apply list_elem_of_In in Hc. apply list_elem_of_In.
    vm_compute in Hc. vm_compute. tauto.
  - reflexivity.
  - reflexivity.
  - apply Hdrop. by vm_compute.
Defined.

Example custom_emoji_after_partial :
  (Serialization.from_dict emoji_fields emoji_bases id "CustomEmoji"
     ({[ "name" := 2; "managed" := 1 ]} : gmap string Z) no_keys_yet).1
  = {[ "name" := 2; "managed" := 1 ]}
  ∧ (Serialization.from_dict emoji_fields emoji_bases id "CustomEmoji"
       ({[ "name" := 2; "managed" := 1 ]} : gmap string Z)
       (Serialization._get_init_keys emoji_fields emoji_bases "PartialEmoji"
          no_keys_yet).2).1
    = {[ "name" := 2 ]}.
Proof. by vm_compute. Qed.

(** * Further facts: [strf_delta] *)

Section strf_delta_facts.

Import DebugUtils.

Lemma plural_amount n u :
  0 ≤ n →
  pretty n +:+ " " +:+ unit_name u +:+ plural n = amount n u.
Proof.
  intros Hn. unfold amount, plural. f_equal. f_equal. f_equal.
  repeat case_bool_decide; simpl; try done; lia.
Qed.

Lemma plural_amount' n u s :
  0 ≤ n → s = " " +:+ unit_name u →
  pretty n +:+ s +:+ plural n = amount n u.
Proof. intros Hn ->. rewrite <- plural_amount by done. by rewrite !string_app_assoc. Qed.

Lemma div_mod_at a b q r :
  0 ≤ r < b → a = b * q + r → a `div` b = q ∧ a `mod` b = r.
Proof.
  intros Hr ->. split; symmetry.
  - by apply (Z.div_unique_pos _ _ q r).
  - by apply (Z.mod_unique_pos _ _ q r).
Qed.

(** X14: for a delta that is not negative, [strf_delta] shows the whole
    units of the largest unit that fits into the delta (years of 365
    days, days, hours, or else minutes) and, of what is left, the whole
    units of the next smaller unit, which is left out only for seconds
    that are switched off; each unit is in the singular exactly for a
    count of one.  So the counts are not negative and what is shown
    falls short of the delta by less than one of the smallest unit
    shown. *)
Theorem strf_delta_truncates td show :
  0 ≤ days td →
  0 ≤ seconds td < 86400 →
  let sh := shown_of (total_seconds td) show in
  strf_delta td show = render sh
  ∧ 0 ≤ (major sh).1
  ∧ from_option (λ m, 0 ≤ m.1) True (minor sh)
  ∧ shown_seconds sh ≤ total_seconds td < shown_seconds sh + shown_grain sh.
Proof.
  intros Hd Hs sh. subst sh. unfold strf_delta.
  pose proof (Z.div_mod (days td) 365 ltac:(lia)) as Ed.
  pose proof (Z.mod_pos_bound (days td) 365 ltac:(lia)) as Bd.
  pose proof (Z.div_mod (seconds td) 3600 ltac:(lia)) as Eh.
  pose proof (Z.mod_pos_bound (seconds td) 3600 ltac:(lia)) as Bh.
  pose proof (Z.div_mod (seconds td `mod` 3600) 60 ltac:(lia)) as Em.
  pose proof (Z.mod_pos_bound (seconds td `mod` 3600) 60 ltac:(lia)) as Bm.
  assert (0 ≤ days td `div` 365) as Py by (apply Z.div_pos; lia).
  assert (0 ≤ seconds td `div` 3600) as Ph by (apply Z.div_pos; lia).
  assert (0 ≤ (seconds td `mod` 3600) `div` 60) as Pm by (apply Z.div_pos; lia).
  remember (days td `div` 365) as y eqn:Hy.
  remember (days td `mod` 365) as d eqn:Hd'.
  remember (seconds td `div` 3600) as h eqn:Hh.
  remember (seconds td `mod` 3600) as r eqn:Hr.
  remember (r `div` 60) as m eqn:Hm.
  remember (r `mod` 60) as sec eqn:Hsec.
  rewrite !(plural_amount' _ Year), !(plural_amount' _ Day),
    !(plural_amount' _ Hour), !(plural_amount' _ Minute),
    !(plural_amount' _ Second) by (done || lia).
  unfold total_seconds.
  remember (days td * 86400 + seconds td) as total eqn:Htotal.
  unfold shown_of, largest_unit. cbn [unit_seconds].
  repeat case_bool_decide; try lia; cbn [next_unit unit_seconds].
  - destruct (div_mod_at total (365 * 86400) y (d * 86400 + seconds td))
      as [-> ->]; [lia | lia |].
    destruct (div_mod_at (d * 86400 + seconds td) 86400 d (seconds td))
      as [-> _]; [lia | lia |].
    unfold render, shown_seconds, shown_grain. simpl.
    repeat split; try done; lia.
  - destruct (div_mod_at total 86400 d (seconds td)) as [-> ->]; [lia | lia |].
    rewrite <- Hh.
    unfold render, shown_seconds, shown_grain. simpl.
    repeat split; try done; lia.
  - assert (total = seconds td) as -> by lia.
    rewrite <- Hh, <- Hr, <- Hm.
    unfold render, shown_seconds, shown_grain. simpl.
    repeat split; try done; lia.
  - assert (total = r) as ->.
    { rewrite Hr, Z.mod_small; lia. }
    rewrite <- Hm, <- Hsec, Z.div_1_r.
    destruct show;
      unfold render, shown_seconds, shown_grain; simpl;
      repeat split; try done; lia.
Qed.

(** X15: below one year, whole years of 365 days are dropped, also from
    a negative delta: a delta of [days < 365] days reads as one of
    [days mod 365] days, so that minus one day reads as 364 days. *)
Theorem strf_delta_wraps td show :
  days td < 365 →
  strf_delta td show = strf_delta (mkDelta (days td `mod` 365) (seconds td)) show.
Proof.
  intros Hd. unfold strf_delta. simpl.
  pose proof (Z.mod_pos_bound (days td) 365 ltac:(lia)) as Bd.
  rewrite Z.mod_mod by lia.
  rewrite (Z.div_small (days td `mod` 365) 365) by lia.
  assert (days td `div` 365 < 1) as Hy.
  { apply Z.div_lt_upper_bound; lia. }
  rewrite (bool_decide_eq_false_2 (days td `div` 365 >= 1)) by lia.
  by rewrite (bool_decide_eq_false_2 (0 >= 1)) by lia.
Qed.

End strf_delta_facts.

Lemma strf_delta_truncates_witness :
  DebugUtils.strf_delta (DebugUtils.mkDelta 400 3700) true
  = DebugUtils.render (DebugUtils.mkShown (1, DebugUtils.Year)
                         (Some (35, DebugUtils.Day))).
Proof.
  destruct (strf_delta_truncates (DebugUtils.mkDelta 400 3700) true) as [H _];
    [simpl; lia | simpl; lia |].
  exact H.
Defined.

Lemma strf_delta_wraps_witness :
  DebugUtils.strf_delta (DebugUtils.mkDelta (-1) 86399) true
  = "364 days and 23 hours".
Proof.
  rewrite (strf_delta_wraps (DebugUtils.mkDelta (-1) 86399) true); [| simpl; lia].
  reflexivity.
Defined.

Example strf_delta_one_year :
  DebugUtils.strf_delta (DebugUtils.mkDelta 400 3700) true = "1 year and 35 days".
Proof. reflexivity. Qed.

(** * Further facts: the order of roles *)

Section role_facts.

Import Roles.

Lemma lt_same_guild r1 r2 :
  _guild_id r1 = _guild_id r2 →
  Role___lt__ r1 (ARole r2)
  = LtBool (if bool_decide (id r1 = _guild_id r1)
            then bool_decide (id r2 ≠ id r1)
            else bool_decide (placed_below r1 r2)).
Proof.
  intros Hg. unfold Role___lt__, placed_below.
  rewrite (bool_decide_eq_false_2 (_guild_id r1 ≠ _guild_id r2)) by tauto.
  repeat case_bool_decide; try done; lia.
Qed.

(** Comparing roles of different guilds raises [RuntimeError], in either
    order and whatever their ids and positions; comparing a role with
    something that is no role gives [NotImplemented]. *)
Lemma role_lt_across_guilds r1 r2 :
  _guild_id r1 ≠ _guild_id r2 →
  Role___lt__ r1 (ARole r2) = LtRuntimeError
  ∧ Role___lt__ r2 (ARole r1) = LtRuntimeError
  ∧ Role___lt__ r1 NotARole = LtNotImplemented.
Proof.
  intros Hg. unfold Role___lt__.
  rewrite !bool_decide_eq_true_2 by congruence. done.
Qed.

(** X16: among the roles of one guild other than its everyone role, [<]
    is a strict total order: no role is below itself, of two roles at
    most one is below the other, exactly one when their ids differ, and
    below is transitive. *)
Theorem role_lt_strict_order r1 r2 r3 :
  _guild_id r1 = _guild_id r2 →
  _guild_id r2 = _guild_id r3 →
  id r1 ≠ _guild_id r1 →
  id r2 ≠ _guild_id r2 →
  id r3 ≠ _guild_id r3 →
  Role___lt__ r1 (ARole r1) = LtBool false
  ∧ (Role___lt__ r1 (ARole r2) = LtBool true →
     Role___lt__ r2 (ARole r1) = LtBool false)
  ∧ (id r1 ≠ id r2 →
     Role___lt__ r1 (ARole r2) = LtBool true
     ∨ Role___lt__ r2 (ARole r1) = LtBool true)
  ∧ (Role___lt__ r1 (ARole r2) = LtBool true →
     Role___lt__ r2 (ARole r3) = LtBool true →
     Role___lt__ r1 (ARole r3) = LtBool true).
Proof.
  intros G12 G23 D1 D2 D3.
  rewrite !lt_same_guild by congruence.
  rewrite !(bool_decide_eq_false_2 (id _ = _guild_id _)) by done.
  unfold placed_below.
  repeat split; intros; repeat case_bool_decide; simplify_eq; try done;
    try (left; f_equal; done); try (right; f_equal; done); try lia.
Qed.

(** X17: the everyone role of a guild (the role whose id is the guild's)
    is below every other role of the guild and not below itself; the
    other role is in turn below it exactly when it is placed below it by
    position, or at the same position with a smaller id. *)
Theorem everyone_role_lowest e r :
  _guild_id e = _guild_id r →
  id e = _guild_id e →
  id r ≠ id e →
  Role___lt__ e (ARole r) = LtBool true
  ∧ Role___lt__ e (ARole e) = LtBool false
  ∧ Role___lt__ r (ARole e) = LtBool (bool_decide (placed_below r e)).
Proof.
  intros Hg He Hr.
  rewrite !lt_same_guild by congruence.
  rewrite (bool_decide_eq_true_2 (id e = _guild_id e)) by done.
  rewrite (bool_decide_eq_false_2 (id r = _guild_id r)) by congruence.
  rewrite (bool_decide_eq_true_2 (id r ≠ id e)) by done.
  rewrite (bool_decide_eq_false_2 (id e ≠ id e)) by tauto.
  done.
Qed.

End role_facts.

Example role_lt_across_guilds_example :
  Roles.Role___lt__ (Roles.mkRole 11 10 1) (Roles.ARole (Roles.mkRole 21 20 1))
  = Roles.LtRuntimeError.
Proof. reflexivity. Qed.

Lemma role_lt_strict_order_witness :
  Roles.Role___lt__ (Roles.mkRole 11 10 2) (Roles.ARole (Roles.mkRole 13 10 5))
  = Roles.LtBool true.
Proof.
  destruct (role_lt_strict_order (Roles.mkRole 11 10 2) (Roles.mkRole 12 10 2)
              (Roles.mkRole 13 10 5)) as (_ & _ & _ & Htrans);
    [reflexivity | reflexivity | simpl; lia | simpl; lia | simpl; lia |].
  apply Htrans; reflexivity.
Defined.

Lemma everyone_role_lowest_witness :
  Roles.Role___lt__ (Roles.mkRole 10 10 0) (Roles.ARole (Roles.mkRole 11 10 0))
  = Roles.LtBool true
  ∧ Roles.Role___lt__ (Roles.mkRole 11 10 0) (Roles.ARole (Roles.mkRole 10 10 0))
    = Roles.LtBool false.
Proof.
  destruct (everyone_role_lowest (Roles.mkRole 10 10 0) (Roles.mkRole 11 10 0))
    as (H1 & _ & H2); [reflexivity | reflexivity | simpl; lia |].
  split; [exact H1 | exact H2].
Defined.

(** * Further facts: guild limits *)

Section guild_facts.

Import Guilds.

Lemma find_app table key k l :
  find (table ++ [(k, l)]) key
  = match find table key with
    | Some x => Some x
    | None => if bool_decide (key_of k = key_of key) then Some l else None
    end.
Proof.
  induction table as [|[k' l'] table IH]; [done |].
  change (((k', l') :: table) ++ [(k, l)]) with ((k', l') :: (table ++ [(k, l)])).
  cbn [find]. by destruct (bool_decide (key_of k' = key_of key)).
Qed.

Lemma tier_limits_key k key :
  key_of k = key_of key → tier_limits k = tier_limits key.
Proof. intros H. unfold tier_limits. by rewrite H. Qed.

Lemma sound_initial : sound PREMIUM_GUILD_LIMITS.
Proof.
  intros key. unfold PREMIUM_GUILD_LIMITS, tier_limits. simpl.
  repeat case_bool_decide; simplify_eq; try done; congruence.
Qed.

Lemma getitem_sound table key :
  sound table →
  (getitem table key).1 = tier_limits key
  ∧ sound (getitem table key).2
  ∧ ∀ k l, find table k = Some l → find (getitem table key).2 k = Some l.
Proof.
  intros Hs. unfold getitem. pose proof (Hs key) as Hkey.
  destruct (find table key) as [l|] eqn:Hf; simpl in *.
  - done.
  - split; [done | split].
    + intros k. rewrite find_app. specialize (Hs k).
      destruct (find table k) eqn:Hk; [done |].
      case_bool_decide as Hkk; [| done]. simpl.
      by rewrite Hkey, (tier_limits_key key k).
    + intros k l Hk. by rewrite find_app, Hk.
Qed.

(** X18: the limits of a guild do not depend on what was asked before.
    On the table as created, and on any table grown by lookups, each of
    the four limits is what the guild's tier and features determine, and
    the lookup leaves the table answering every tier as before, though an
    unknown tier is entered into it. *)
Theorem guild_limits_stable (self : Guild) table :
  sound table →
  let tier := tier_limits (premium_tier self) in
  ((emoji_limit self table).1
     = Z.max (if bool_decide ("MORE_EMOJI" ∈ features self) then 200 else 50)
         (emoji tier)
   ∧ sound (emoji_limit self table).2)
  ∧ ((sticker_limit self table).1
       = Z.max (if bool_decide ("MORE_STICKERS" ∈ features self) then 60 else 0)
           (stickers tier)
     ∧ sound (sticker_limit self table).2)
  ∧ ((bitrate_limit self table).1
       = Z.max (if bool_decide ("VIP_REGIONS" ∈ features self) then 128000 else 96000)
           (bitrate tier)
     ∧ sound (bitrate_limit self table).2)
  ∧ ((filesize_limit self table).1 = filesize tier
     ∧ sound (filesize_limit self table).2)
  ∧ sound PREMIUM_GUILD_LIMITS.
Proof.
  intros Hs tier.
  destruct (getitem_sound table (premium_tier self) Hs) as (Hv & Hs' & _).
  unfold emoji_limit, sticker_limit, bitrate_limit, filesize_limit.
  destruct (getitem table (premium_tier self)) as [l t']. simpl in *. subst l.
  repeat split; try done. apply sound_initial.
Qed.

(** X19: a higher premium tier never lowers a limit.  For two guilds with
    the same features and integer tiers [a ≤ b ≤ 3], each limit of the
    first is at most that of the second; and every emoji limit lies
    between 50 and 250, at least 200 with the [MORE_EMOJI] feature. *)
Theorem guild_limits_monotone g1 g2 a b table :
  sound table →
  premium_tier g1 = PyInt a →
  premium_tier g2 = PyInt b →
  features g1 = features g2 →
  a ≤ b ≤ 3 →
  (emoji_limit g1 table).1 ≤ (emoji_limit g2 table).1
  ∧ (sticker_limit g1 table).1 ≤ (sticker_limit g2 table).1
  ∧ (bitrate_limit g1 table).1 ≤ (bitrate_limit g2 table).1
  ∧ (filesize_limit g1 table).1 ≤ (filesize_limit g2 table).1
  ∧ 50 ≤ (emoji_limit g1 table).1 ≤ 250
  ∧ ("MORE_EMOJI" ∈ features g1 → 200 ≤ (emoji_limit g1 table).1).
Proof.
  intros Hs H1 H2 Hf Hab.
  destruct (guild_limits_stable g1 table Hs)
    as ((E1 & _) & (S1 & _) & (B1 & _) & (F1 & _) & _).
  destruct (guild_limits_stable g2 table Hs)
    as ((E2 & _) & (S2 & _) & (B2 & _) & (F2 & _) & _).
  rewrite E1, E2, S1, S2, B1, B2, F1, F2, H1, H2, Hf.
  unfold tier_limits, default_limits. simpl.
  repeat split; try intros ?; repeat case_bool_decide; simplify_eq; simpl;
    try lia; try done;
    repeat match goal with
           | H : PyInt ?x ≠ PyInt ?y |- _ =>
               assert (x ≠ y) by (intros ->; by apply H); clear H
           end; lia.
Qed.

End guild_facts.

Lemma guild_limits_stable_witness :
  (Guilds.emoji_limit (Guilds.mkGuild PyNone ["MORE_EMOJI"])
     Guilds.PREMIUM_GUILD_LIMITS).1 = 200
  ∧ Guilds.sound (Guilds.emoji_limit (Guilds.mkGuild PyNone ["MORE_EMOJI"])
                    Guilds.PREMIUM_GUILD_LIMITS).2.
Proof.
  destruct (guild_limits_stable (Guilds.mkGuild PyNone ["MORE_EMOJI"])
              Guilds.PREMIUM_GUILD_LIMITS sound_initial) as [[Hv Hs] _].
  split; [exact Hv | exact Hs].
Defined.

Lemma guild_limits_monotone_witness :
  (Guilds.emoji_limit (Guilds.mkGuild (PyInt 0) []) Guilds.PREMIUM_GUILD_LIMITS).1
  ≤ (Guilds.emoji_limit (Guilds.mkGuild (PyInt 2) []) Guilds.PREMIUM_GUILD_LIMITS).1.
Proof.
  apply (guild_limits_monotone (Guilds.mkGuild (PyInt 0) [])
           (Guilds.mkGuild (PyInt 2) []) 0 2 Guilds.PREMIUM_GUILD_LIMITS
           sound_initial); [reflexivity | reflexivity | reflexivity | lia].
Defined.

Example unknown_tier_is_entered :
  (Guilds.emoji_limit (Guilds.mkGuild PyNone []) Guilds.PREMIUM_GUILD_LIMITS).2
  = Guilds.PREMIUM_GUILD_LIMITS ++ [(PyNone, Guilds.default_limits)].
Proof. reflexivity. Qed.

(** * Further facts: partial emoji *)

Section emoji_facts.

Import Emoji.

(** X20: [PartialEmoji.__eq__] holds between an emoji and itself;
    between two emoji that have the same non-zero id it holds whatever
    their names and [animated] flags; and it is not symmetric: an emoji
    without an id equals a custom emoji of the same name, which does not
    equal it. *)
Theorem partial_emoji_eq e i n1 n2 a1 a2 :
  i ≠ 0 →
  PartialEmoji___eq__ e (AnEmoji e) = true
  ∧ PartialEmoji___eq__ (mkEmoji (Some i) n1 a1) (AnEmoji (mkEmoji (Some i) n2 a2))
    = true
  ∧ PartialEmoji___eq__ (mkEmoji None n1 a1) (AnEmoji (mkEmoji (Some i) n1 a2))
    = true
  ∧ PartialEmoji___eq__ (mkEmoji (Some i) n1 a2) (AnEmoji (mkEmoji None n1 a1))
    = false
  ∧ PartialEmoji___eq__ e NotAnEmoji = false.
Proof.
  intros Hi. unfold PartialEmoji___eq__, has_id. simpl.
  assert ((i =? 0) = false) as -> by lia. simpl.
  repeat split.
  - destruct (match id e with Some n => negb (n =? 0) | None => false end);
      by rewrite bool_decide_eq_true_2.
  - by rewrite bool_decide_eq_true_2.
  - by rewrite bool_decide_eq_true_2.
Qed.

Variables word_char digit_char : N → bool.

Lemma from_a_length s g :
  from_a word_char digit_char s = Some g → length g = 3%nat.
Proof.
  unfold from_a. intros H.
  assert (∀ o : option (text * text),
            (λ '(w, d), [[]; w; d]) <$> o = Some g → length g = 3%nat) as Hw.
  { intros [[w d]|]; simpl; [by intros [= <-] | done]. }
  destruct s as [|c r]; [done |].
  case_bool_decide; [| by eapply Hw].
  destruct (colon_word _ _ r) as [[w d]|]; [by injection H as <- | by eapply Hw].
Qed.

Lemma match_here_length s g :
  match_here word_char digit_char s = Some g → length g = 3%nat.
Proof.
  unfold match_here. destruct s as [|c r]; [done |].
  case_bool_decide; [| apply from_a_length].
  destruct (from_a _ _ r) as [g'|] eqn:Hr; [| apply from_a_length].
  intros [= <-]. by eapply from_a_length.
Qed.

Lemma first_match_length s g :
  first_match word_char digit_char s = Some g → length g = 3%nat.
Proof.
  induction s as [|c r IH]; [done |].
  cbn [first_match].
  destruct (match_here word_char digit_char (c :: r)) as [g'|] eqn:Hm; [| done].
  intros [= <-]. by eapply match_here_length.
Qed.

(** X21: [from_str] never yields a custom emoji that is not animated:
    either the pattern matches nowhere and the whole text becomes the
    name, with no id, or the second and third groups of the leftmost
    match become name and id and [animated] is passed as [True]. *)
Theorem from_str_animated_or_plain s :
  first_match word_char digit_char s = None
    ∧ from_str word_char digit_char s = mkArgs s None false
  ∨ ∃ g1 nm i,
      first_match word_char digit_char s = Some [g1; nm; i]
      ∧ from_str word_char digit_char s = mkArgs nm (Some i) true.
Proof.
  unfold from_str.
  destruct (first_match _ _ s) as [g|] eqn:Hm; [right | by left].
  pose proof (first_match_length _ _ Hm) as Hlen.
  destruct g as [|g1 [|nm [|i [|]]]]; try discriminate Hlen.
  by exists g1, nm, i.
Qed.

Lemma match_here_needs_colon s :
  cp ":" ∉ s → match_here word_char digit_char s = None.
Proof.
  intros Hs.
  assert (∀ t, cp ":" ∉ t → colon_word word_char digit_char t = None) as Hcw.
  { intros [|c r] Ht; [done |]. unfold colon_word.
    rewrite bool_decide_eq_false_2; [done |]. intros ->. apply Ht. left. }
  assert (∀ t, cp ":" ∉ t → from_a word_char digit_char t = None) as Hfa.
  { intros [|c r] Ht; [done |]. unfold from_a. rewrite (Hcw _ Ht). simpl.
    case_bool_decide; [| done]. rewrite Hcw; [done |].
    intros Hin. apply Ht. by right. }
  destruct s as [|c r]; [done |]. unfold match_here.
  rewrite (Hfa _ Hs). case_bool_decide; [| done].
  rewrite Hfa; [done |]. intros Hin. apply Hs. by right.
Qed.

(** X22: a text without a colon, such as a standard emoji, is taken whole
    as the name, with no id and not animated. *)
Theorem from_str_without_colon s :
  cp ":" ∉ s →
  from_str word_char digit_char s = mkArgs s None false.
Proof.
  intros Hs. unfold from_str.
  assert (first_match word_char digit_char s = None) as ->; [| done].
  induction s as [|c r IH]; [done |].
  cbn [first_match]. rewrite (match_here_needs_colon _ Hs).
  apply IH. intros Hin. apply Hs. by right.
Qed.

Lemma pretty_N_char_digit k : is_digit (pretty_N_char k) = true.
Proof. unfold pretty_N_char. by repeat case_match. Qed.

Lemma pretty_N_go_digits x t :
  string_forall is_digit t = true →
  string_forall is_digit (pretty_N_go x t) = true.
Proof.
  revert t. induction (N.lt_wf_0 x) as [x _ IH]; intros t Ht.
  destruct (decide (x = 0)%N) as [-> | Hx]; [by rewrite pretty_N_go_0 |].
  rewrite pretty_N_go_step by lia.
  apply IH; [apply N.div_lt; lia |].
  simpl. by rewrite pretty_N_char_digit.
Qed.

Lemma pretty_pos_digits (n : Z) :
  0 < n → string_forall is_digit (pretty n) = true.
Proof.
  destruct n as [|p|p]; try lia. intros _.
  unfold pretty, pretty_Z, pretty, pretty_positive, pretty, pretty_N.
  rewrite decide_False by done. by apply pretty_N_go_digits.
Qed.

Hypothesis digit_table : ∀ c, ascii_digit c = true → digit_char c = true.
Hypothesis gt_no_digit : digit_char (cp ">") = false.
Hypothesis colon_no_word : word_char (cp ":") = false.

Lemma digits_group_run t rest :
  string_forall is_digit t = true →
  digits_group digit_char (text_of t ++ cp ">" :: rest) = text_of t.
Proof.
  induction t as [|c t IH]; intros Ht.
  - change (digits_group digit_char (cp ">" :: rest) = []).
    cbn [digits_group]. by rewrite gt_no_digit.
  - cbn [string_forall] in Ht. apply andb_prop in Ht as [Hc Ht].
    change (text_of (String c t) ++ cp ">" :: rest)
      with (cp c :: (text_of t ++ cp ">" :: rest)).
    change (text_of (String c t)) with (cp c :: text_of t).
    cbn [digits_group]. rewrite (digit_table (cp c) Hc). by rewrite (IH Ht).
Qed.

Lemma word_group_run nm d rest :
  Forall (λ c, word_char c = true) nm →
  string_forall is_digit d = true →
  word_group word_char digit_char (nm ++ cp ":" :: text_of d ++ cp ">" :: rest)
  = Some (nm, text_of d).
Proof.
  intros Hnm Hd. induction Hnm as [|c nm Hc _ IH].
  - change ([] ++ ?x) with x. cbn [word_group]. rewrite colon_no_word.
    unfold colon_digits. rewrite bool_decide_eq_true_2 by done.
    by rewrite digits_group_run.
  - change ((c :: nm) ++ ?x) with (c :: (nm ++ x)). cbn [word_group].
    by rewrite Hc, IH.
Qed.

Lemma colon_word_run nm d rest :
  Forall (λ c, word_char c = true) nm →
  string_forall is_digit d = true →
  colon_word word_char digit_char
    (cp ":" :: nm ++ cp ":" :: text_of d ++ cp ">" :: rest)
  = Some (nm, text_of d).
Proof.
  intros Hnm Hd. unfold colon_word. rewrite bool_decide_eq_true_2 by done.
  by apply word_group_run.
Qed.

Lemma from_a_plain r w d :
  colon_word word_char digit_char (cp ":" :: r) = Some (w, d) →
  from_a word_char digit_char (cp ":" :: r) = Some [[]; w; d].
Proof.
  intros H. unfold from_a. rewrite bool_decide_eq_false_2 by done.
  by rewrite H.
Qed.

Lemma from_a_animated r w d :
  colon_word word_char digit_char r = Some (w, d) →
  from_a word_char digit_char (cp "a" :: r) = Some [[cp "a"]; w; d].
Proof.
  intros H. unfold from_a. rewrite bool_decide_eq_true_2 by done.
  by rewrite H.
Qed.

Lemma match_here_bracket r g :
  from_a word_char digit_char r = Some g →
  match_here word_char digit_char (cp "<" :: r) = Some g.
Proof.
  intros H. unfold match_here. rewrite bool_decide_eq_true_2 by done.
  by rewrite H.
Qed.

Lemma str_custom n nm a :
  0 < n →
  PartialEmoji___str__ (mkEmoji (Some n) (Some nm) a)
  = Some (cp "<" :: (if a then [cp "a"] else [])
            ++ cp ":" :: nm ++ cp ":" :: text_of (pretty n) ++ [cp ">"]).
Proof.
  intros Hn. unfold PartialEmoji___str__, req_format, has_id.
  cbn [id name animated str_name str_id default from_option].
  assert ((n =? 0) = false) as -> by lia. cbn [negb].
  f_equal. destruct a.
  - change (text_of "a:") with [cp "a"; cp ":"]. cbn [app].
    by rewrite <- !app_assoc.
  - change (text_of ":") with [cp ":"]. cbn [app].
    by rewrite <- !app_assoc.
Qed.

(** X23: reading back what [__str__] wrote gives the name and the digits
    of the id again, but always with [animated=True], also for an emoji
    that was not animated. *)
Theorem from_str_of_str n nm a :
  0 < n →
  Forall (λ c, word_char c = true) nm →
  ∃ s,
    PartialEmoji___str__ (mkEmoji (Some n) (Some nm) a) = Some s
    ∧ from_str word_char digit_char s = mkArgs nm (Some (text_of (pretty n))) true.
Proof.
  intros Hn Hnm. eexists. split; [by apply str_custom |].
  pose proof (pretty_pos_digits n Hn) as Hd.
  unfold from_str.
  assert (first_match word_char digit_char
            (cp "<" :: (if a then [cp "a"] else [])
               ++ cp ":" :: nm ++ cp ":" :: text_of (pretty n) ++ [cp ">"])
          = Some [(if a then [cp "a"] else []); nm; text_of (pretty n)]) as ->;
    [| done].
  cbn [first_match].
  change (text_of (pretty n) ++ [cp ">"])
    with (text_of (pretty n) ++ cp ">" :: []).
  destruct a.
  - change ([cp "a"] ++ ?x) with (cp "a" :: x).
    by rewrite (match_here_bracket _ _
                  (from_a_animated _ _ _ (colon_word_run _ _ _ Hnm Hd))).
  - change ([] ++ ?x) with x.
    by rewrite (match_here_bracket _ _
                  (from_a_plain _ _ _ (colon_word_run _ _ _ Hnm Hd))).
Qed.

End emoji_facts.

Lemma partial_emoji_eq_witness :
  Emoji.PartialEmoji___eq__ (Emoji.mkEmoji None (Some (Emoji.text_of "wave")) false)
    (Emoji.AnEmoji (Emoji.mkEmoji (Some 7) (Some (Emoji.text_of "wave")) false))
  = true
  ∧ Emoji.PartialEmoji___eq__
      (Emoji.mkEmoji (Some 7) (Some (Emoji.text_of "wave")) false)
      (Emoji.AnEmoji (Emoji.mkEmoji None (Some (Emoji.text_of "wave")) false))
    = false.
Proof.
  destruct (partial_emoji_eq (Emoji.mkEmoji None None false) 7
              (Some (Emoji.text_of "wave")) None false false)
    as (_ & _ & H1 & H2 & _); [lia |].
  split; [exact H1 | exact H2].
Defined.

Lemma from_str_without_colon_witness :
  Emoji.from_str Emoji.ascii_word Emoji.ascii_digit [128075%N]
  = Emoji.mkArgs [128075%N] None false.
Proof.
  apply (from_str_without_colon Emoji.ascii_word Emoji.ascii_digit [128075%N]).
  intros Hin. apply list_elem_of_In in Hin. simpl in Hin.
  destruct Hin as [Hin | []]. discriminate Hin.
Defined.

Lemma from_str_of_str_witness :
  ∃ s,
    Emoji.PartialEmoji___str__
      (Emoji.mkEmoji (Some 123) (Some (Emoji.text_of "smile")) false) = Some s
    ∧ Emoji.from_str Emoji.ascii_word Emoji.ascii_digit s
      = Emoji.mkArgs (Emoji.text_of "smile") (Some (Emoji.text_of "123")) true.
Proof.
  apply (from_str_of_str Emoji.ascii_word Emoji.ascii_digit
           (λ c H, H) eq_refl eq_refl 123 (Emoji.text_of "smile") false).
  - lia.
  - repeat constructor.
Defined.

Example from_str_static_emoji :
  Emoji.from_str Emoji.ascii_word Emoji.ascii_digit (Emoji.text_of "<:smile:123>")
  = Emoji.mkArgs (Emoji.text_of "smile") (Some (Emoji.text_of "123")) true.
Proof. reflexivity. Qed.

Example from_str_clock :
  Emoji.from_str Emoji.ascii_word Emoji.ascii_digit (Emoji.text_of "at 10:30:00")
  = Emoji.mkArgs (Emoji.text_of "30") (Some (Emoji.text_of "00")) true.
Proof. reflexivity. Qed.

(** * Further facts: the webhook object *)

Section webhook_facts.

Import WebhookModel.

Variable transport : list RequestCall → RequestCall → res pydata.
Variable process_message_payload : send_args → raised + pydata.
Variable to_optional_snowflake : pyval → raised + pyval.
Variable to_image_data : pydata → raised + pydata.
Variable lower : string → string.

Lemma bare_route_key m p w l :
  is_route w l (bare_route m p) →
  rl_bucket l w = (Ok ("None:None:" +:+ m +:+ " " +:+ p), w).
Proof. intros Hl. by rewrite (rl_bucket_run _ _ _ Hl). Qed.

(** X24: [Webhook.delete] makes exactly one request, a DELETE on
    [/webhooks/{id}/{token}], or on [/webhooks/{id}] when the webhook's
    token is [MISSING] or empty; its route goes into the bucket
    [None:None:DELETE path]; an exception of the request comes out as it
    is. *)
Theorem webhook_delete_request (self : Webhook) w :
  let path := "/webhooks/" +:+ pretty (id self)
              +:+ match token self with
                  | Given s => if bool_decide (s = "") then "" else "/" +:+ s
                  | MISSING => ""
                  end in
  ∃ l,
    let c := mkCall l None None None in
    let w' := mkWorld (<[l := ORoute (bare_route "DELETE" path)]> (heap w))
                (sent w ++ [c]) in
    delete transport self w
    = (match transport (sent w) c with
       | Ok _ => Returned ()
       | Raise e => Raised (RequestError e)
       end, w')
    ∧ heap w !! l = None
    ∧ rl_bucket l w' = (Ok ("None:None:DELETE " +:+ path), w').
Proof.
  intros path. exists (fresh (dom (heap w))).
  assert ("/webhooks/" +:+ pretty (id self)
          +:+ (if truthy (token_arg (token self))
               then "/" +:+ str (token_arg (token self)) else "") = path) as Hp.
  { subst path. f_equal. f_equal. destruct (token self) as [|t]; [done |].
    simpl. by case_bool_decide. }
  split; [| split].
  - unfold delete, delete_webhook, webhook_endpoint. simpl str at 1.
    rewrite Hp. rewrite request_via_route. unfold awaited.
    by destruct (transport _ _).
  - apply fresh_loc_unused.
  - rewrite (bare_route_key "DELETE" path); [done |].
    unfold is_route. simpl. by rewrite lookup_insert_eq.
Qed.

(** X25: [Webhook.send] checks the token before the message: without a
    truthy token it raises [ForeignWebhookException], also for an empty
    message; with one, an empty message raises [EmptyMessageException];
    in both cases no helper runs and the world is left as it was. *)
Theorem webhook_send_guards (self : Webhook) args w :
  (token_truthy (token self) = false →
     send transport process_message_payload to_optional_snowflake self args w
     = (Raised ForeignWebhookException, w))
  ∧ (token_truthy (token self) = true →
     nothing_to_send args = true →
     send transport process_message_payload to_optional_snowflake self args w
     = (Raised EmptyMessageException, w)).
Proof.
  unfold send, nothing_to_send. split.
  - by intros ->.
  - by intros -> ->.
Qed.

(** X26: [Webhook.send] with [suppress_embeds] set never sends: once the
    token and the message have passed, it raises [NameError], since
    [MessageFlags] is imported for type checking only. *)
Theorem webhook_send_suppress_embeds (self : Webhook) args w :
  token_truthy (token self) = true →
  nothing_to_send args = false →
  suppress_embeds args = true →
  send transport process_message_payload to_optional_snowflake self args w
  = (Raised (PyNameError "MessageFlags"), w).
Proof. unfold send, nothing_to_send. by intros -> -> ->. Qed.

(** X27: [Webhook.send] either raises and leaves the world as it was, or
    makes exactly one request: a POST on [/webhooks/{id}/{token}] that
    carries the processed payload as data and the query parameters of
    [execute_webhook]; the latter only when the token is truthy, the
    message is not empty and [suppress_embeds] is off. *)
Theorem webhook_send_request (self : Webhook) args w :
  let result :=
    send transport process_message_payload to_optional_snowflake self args w in
  (result.2 = w ∧ ∃ r, result.1 = Raised r)
  ∨ ∃ tok message_payload thread_id l qs,
      token self = Given tok ∧ tok ≠ ""
      ∧ nothing_to_send args = false
      ∧ suppress_embeds args = false
      ∧ process_message_payload args = inr message_payload
      ∧ to_optional_snowflake (thread args) = inr thread_id
      ∧ heap w !! l = None
      ∧ result.2
        = mkWorld (<[l := ORoute (bare_route "POST"
                            ("/webhooks/" +:+ pretty (id self) +:+ "/" +:+ tok))]>
                     (heap w))
            (sent w ++ [mkCall l (Some message_payload) (Some qs) None])
      ∧ qs !! "wait" = Some (PyStr (if wait args then "true" else "false"))
      ∧ qs !! "thread_id"
        = (if decide (thread_id = PyNone) then None else Some thread_id).
Proof.
  intros result. subst result. unfold send.
  destruct (token self) as [|tok] eqn:Htok; cbn [token_truthy negb];
    [left; eauto |].
  destruct (truthy (PyStr tok)) eqn:Htruthy; cbn [negb]; [| left; eauto].
  fold (nothing_to_send args).
  destruct (nothing_to_send args) eqn:Hn; [left; eauto |].
  destruct (suppress_embeds args) eqn:Hs; [left; eauto |].
  destruct (process_message_payload args) as [r | payload] eqn:Hp;
    [left; eauto |].
  destruct (to_optional_snowflake (thread args)) as [r | thread_id] eqn:Ht;
    [left; eauto |].
  right. exists tok, payload, thread_id, (fresh (dom (heap w))).
  exists (dict_filter_none
            {[ "wait" := PyStr (if wait args then "true" else "false");
               "thread_id" := thread_id ]}).
  unfold execute_webhook. rewrite request_via_route. unfold awaited.
  assert (tok ≠ "") as Hne.
  { intros ->. discriminate Htruthy. }
  repeat split; try done.
  - apply fresh_loc_unused.
  - by destruct (transport _ _).
  - rewrite dict_filter_none_lookup. by destruct (wait args).
  - rewrite dict_filter_none_lookup.
    rewrite lookup_insert_ne by done. rewrite lookup_singleton_eq.
    destruct (decide (thread_id = PyNone)) as [-> | Hne']; [done |].
    by destruct thread_id.
Qed.

(** X28: [Webhook.edit] called without a name raises [TypeError], and
    with a name that lowers to [clyde] raises [ValueError]; either way
    before any helper runs or anything is sent.  With another name it
    makes at most one request, and none when a helper raises. *)
Theorem webhook_edit_name (self : Webhook) name avatar channel_id w :
  edit transport to_optional_snowflake to_image_data lower self MISSING
    avatar channel_id w
  = (Raised PyTypeError, w)
  ∧ (lower name = "clyde" →
     edit transport to_optional_snowflake to_image_data lower self (Given name)
       avatar channel_id w
     = (Raised PyValueError, w))
  ∧ (length (sent (edit transport to_optional_snowflake to_image_data lower
                     self (Given name) avatar channel_id w).2)
     ≤ S (length (sent w)))%nat.
Proof.
  split; [done |]. split.
  - intros Hl. unfold edit. by rewrite bool_decide_eq_true_2.
  - unfold edit. case_bool_decide; [simpl; lia |].
    destruct (to_image_data avatar); [simpl; lia |].
    destruct (to_optional_snowflake channel_id); [simpl; lia |].
    unfold modify_webhook. rewrite request_via_route. unfold awaited.
    destruct (transport _ _); simpl; rewrite length_app; simpl; lia.
Qed.

End webhook_facts.

Lemma webhook_send_guards_witness :
  WebhookModel.send echo_transport pass_payload pass_snowflake
    (WebhookModel.mkWebhook 7 MISSING) empty_message w0
  = (WebhookModel.Raised WebhookModel.ForeignWebhookException, w0)
  ∧ WebhookModel.send echo_transport pass_payload pass_snowflake
      (WebhookModel.mkWebhook 7 (Given "tok")) empty_message w0
    = (WebhookModel.Raised WebhookModel.EmptyMessageException, w0).
Proof.
  split.
  - apply (webhook_send_guards echo_transport pass_payload pass_snowflake
             (WebhookModel.mkWebhook 7 MISSING) empty_message w0).
    reflexivity.
  - apply (webhook_send_guards echo_transport pass_payload pass_snowflake
             (WebhookModel.mkWebhook 7 (Given "tok")) empty_message w0);
      reflexivity.
Defined.

Lemma webhook_send_suppress_embeds_witness :
  WebhookModel.send echo_transport pass_payload pass_snowflake
    (WebhookModel.mkWebhook 7 (Given "tok")) (text_message true) w0
  = (WebhookModel.Raised (WebhookModel.PyNameError "MessageFlags"), w0).
Proof.
  apply (webhook_send_suppress_embeds echo_transport pass_payload pass_snowflake
           (WebhookModel.mkWebhook 7 (Given "tok")) (text_message true) w0);
    reflexivity.
Defined.

Lemma webhook_edit_name_witness :
  WebhookModel.edit echo_transport pass_snowflake pass_image ascii_lower
    (WebhookModel.mkWebhook 7 (Given "tok")) (Given "ClYdE") (DVal PyNone) PyNone w0
  = (WebhookModel.Raised WebhookModel.PyValueError, w0).
Proof.
  destruct (webhook_edit_name echo_transport pass_snowflake pass_image
              ascii_lower (WebhookModel.mkWebhook 7 (Given "tok")) "ClYdE"
              (DVal PyNone) PyNone w0) as (_ & Hclyde & _).
  apply Hclyde. reflexivity.
Defined.

Example webhook_send_text :
  (WebhookModel.send echo_transport pass_payload pass_snowflake
     (WebhookModel.mkWebhook 7 (Given "tok")) (text_message false) w0).2
  = mkWorld {[ 1%positive := ORoute (bare_route "POST" "/webhooks/7/tok") ]}
      [ mkCall 1%positive (Some (DDict [("content", DVal (PyStr "hello"))]))
          (Some {[ "wait" := PyStr "false" ]}) None ].
Proof. by vm_compute. Qed.
